(** * Meeting transcription endpoint: a shallow embedding of the handler

    The repository holds two copies of one serverless function,
    [src/api/transcribe.js] and a second copy kept as [src/unnamed/part_000].
    Both are embedded here: the JavaScript values the handler touches, the
    operators it applies to them, the three network collaborators as oracles
    of a [World], and the handler itself as a program in a small
    state-and-exception monad whose state is the list of network calls made
    so far. *)

From Stdlib Require Import String Ascii List Bool Arith.
From Stdlib.Strings Require Import Byte.
From Stdlib Require Import DecimalString.
Import ListNotations.
Open Scope string_scope.
Set Warnings "-register-all".

(** ** Strings

    A JavaScript string is taken as a sequence of 8-bit characters (the
    UTF-8 bytes of the text); every pattern the handler searches for is
    plain ASCII. *)

Definition dq : string := String "034"%char EmptyString.
Definition nl : string := String "010"%char EmptyString.
Definition quoted (s : string) : string := dq ++ s ++ dq.

(** [s.includes(pat)] *)
Fixpoint includes (s pat : string) : bool :=
  prefix pat s
  || match s with
     | EmptyString => false
     | String _ rest => includes rest pat
     end.

Definition lower_char (c : ascii) : ascii :=
  let n := nat_of_ascii c in
  if ((65 <=? n) && (n <=? 90))%nat then ascii_of_nat (n + 32) else c.

(** [s.toLowerCase()].  Characters outside ASCII are left as they are: no
    such character lower-cases to a letter of the patterns searched for. *)
Fixpoint toLowerCase (s : string) : string :=
  match s with
  | EmptyString => EmptyString
  | String c rest => String (lower_char c) (toLowerCase rest)
  end.

(** Decimal rendering of a non-negative integer, as a template literal
    prints an integer-valued number. *)
Definition decimal (n : nat) : string := NilZero.string_of_uint (Nat.to_uint n).

(** ** Numbers

    JavaScript numbers are IEEE doubles.  The handler never computes with
    them: it tests them for truthiness, compares a [length] with [0], prints
    them and passes them through.  The type is kept abstract behind these
    operations. *)

Class Numbers : Type := {
  Number : Type;
  Number_of_nat : nat -> Number;
  (** [+0], [-0] and [NaN] *)
  Number_is_falsy : Number -> bool;
  (** [x > 0] *)
  Number_gt_zero : Number -> bool;
  Number_toString : Number -> string;
  (** [Number(s)] on a string *)
  String_toNumber : string -> Number;
  Number_gt_zero_of_nat : forall n, Number_gt_zero (Number_of_nat n) = (0 <? n)%nat
}.

Section Embedding.
Context {num : Numbers}.

(** ** Values

    The values that reach the handler are JSON data (request body, service
    responses, [JSON.parse] results) and [undefined].  Objects are own-key
    association lists; no value is callable. *)

Inductive JsValue : Type :=
| JsUndefined
| JsNull
| JsBool (b : bool)
| JsNumber (x : Number)
| JsString (s : string)
| JsArray (elements : list JsValue)
| JsObject (properties : list (string * JsValue)).

(** What the engine reports, as the reason of a [TypeError] or
    [SyntaxError] it raises itself. *)
Inductive Fault : Type :=
| CannotDestructure (v : JsValue)
| CannotReadProperty (v : JsValue) (key : string)
| NotAFunction (callee : string)
| CannotConvertToPrimitive (v : JsValue)
| UnexpectedToken (text : string).

Inductive Exn : Type :=
| Error (message : string)
| EngineError (reason : Fault).

Class Engine : Type := {
  (** [JSON.parse(text)]; [None] is a [SyntaxError] *)
  JSON_parse : string -> option JsValue;
  (** the [message] of an error raised by the engine *)
  fault_message : Fault -> string
}.

Context {eng : Engine}.

Definition error_message (error : Exn) : string :=
  match error with
  | Error message => message
  | EngineError reason => fault_message reason
  end.

(** Evaluation of an expression: a value or a throw. *)
Definition Eval (A : Type) : Type := Exn + A.

Definition value {A} (a : A) : Eval A := inr a.
Definition raise {A} (reason : Fault) : Eval A := inl (EngineError reason).
Definition and_then {A B} (e : Eval A) (k : A -> Eval B) : Eval B :=
  match e with
  | inl error => inl error
  | inr a => k a
  end.

Notation "'let*' x ':=' e 'in' k" := (and_then e (fun x => k))
  (at level 10, x name, e at level 100, k at level 200).

(** ToBoolean *)
Definition truthy (v : JsValue) : bool :=
  match v with
  | JsUndefined | JsNull => false
  | JsBool b => b
  | JsNumber x => negb (Number_is_falsy x)
  | JsString s => negb (s =? EmptyString)
  | JsArray _ | JsObject _ => true
  end.

(** [a || b] *)
Definition or_else (a b : JsValue) : JsValue := if truthy a then a else b.

Fixpoint lookup (key : string) (properties : list (string * JsValue)) : JsValue :=
  match properties with
  | [] => JsUndefined
  | (k, v) :: rest => if k =? key then v else lookup key rest
  end.

(** [v.key] on a value that is neither [undefined] nor [null].  The keys
    the handler reads are own data keys or [length]; none of them names a
    prototype method. *)
Definition prop (v : JsValue) (key : string) : JsValue :=
  match v with
  | JsObject properties => lookup key properties
  | JsArray elements =>
      if key =? "length" then JsNumber (Number_of_nat (List.length elements))
      else JsUndefined
  | JsString s =>
      if key =? "length" then JsNumber (Number_of_nat (String.length s))
      else JsUndefined
  | _ => JsUndefined
  end.

Definition nullish (v : JsValue) : bool :=
  match v with
  | JsUndefined | JsNull => true
  | _ => false
  end.

(** [v.key] *)
Definition get (v : JsValue) (key : string) : Eval JsValue :=
  if nullish v then raise (CannotReadProperty v key) else value (prop v key).

(** [v[0]] *)
Definition first (v : JsValue) : Eval JsValue :=
  match v with
  | JsUndefined | JsNull => raise (CannotReadProperty v "0")
  | JsArray elements => value (nth 0 elements JsUndefined)
  | JsString (String c _) => value (JsString (String c EmptyString))
  | JsObject properties => value (lookup "0" properties)
  | _ => value JsUndefined
  end.

Definition has_key (key : string) (properties : list (string * JsValue)) : bool :=
  existsb (fun kv => fst kv =? key) properties.

(** ToString, as a template literal, string concatenation, [fetch] and
    [JSON.parse] apply it to their argument.  A plain object prints through
    [Object.prototype.toString] unless an own [toString] key (never
    callable here) hides it, in which case the conversion throws. *)
Fixpoint ToString (v : JsValue) : Eval string :=
  match v with
  | JsUndefined => value "undefined"
  | JsNull => value "null"
  | JsBool true => value "true"
  | JsBool false => value "false"
  | JsNumber x => value (Number_toString x)
  | JsString s => value s
  | JsArray elements =>
      let* parts :=
        (fix join_parts (l : list JsValue) : Eval (list string) :=
           match l with
           | [] => value []
           | e :: rest =>
               let* s := (if nullish e then value EmptyString else ToString e) in
               let* ss := join_parts rest in
               value (s :: ss)
           end) elements in
      value (String.concat "," parts)
  | JsObject properties =>
      if has_key "toString" properties
      then raise (CannotConvertToPrimitive v)
      else value "[object Object]"
  end.

(** [v > 0]: [v] is converted to a primitive (for the data at hand, the
    same conversion as ToString), then to a number. *)
Definition gt_zero (v : JsValue) : Eval bool :=
  match v with
  | JsUndefined | JsNull => value false
  | JsBool b => value b
  | JsNumber x => value (Number_gt_zero x)
  | JsString s => value (Number_gt_zero (String_toNumber s))
  | JsArray _ | JsObject _ =>
      let* s := ToString v in
      value (Number_gt_zero (String_toNumber s))
  end.

(** ** The world outside the handler *)

(** [new File([new Blob([audioBuffer], {type})], fileName, {type})] *)
Record AudioFile : Type := {
  fileBits : list byte;
  fileName : string;
  fileType : string
}.

(** Argument of [openai.audio.transcriptions.create] *)
Record TranscriptionParams : Type := {
  file : AudioFile;
  transcription_model : string;
  transcription_response_format : string;
  timestamp_granularities : list string
}.

Record Message : Type := { role : string; content : JsValue }.

(** Argument of [openai.chat.completions.create]; [response_format] holds
    the [type] of the requested format when one is given. *)
Record ChatParams : Type := {
  model : string;
  messages : list Message;
  response_format : option string;
  max_tokens : nat
}.

(** The response of [fetch], as far as the handler reads it. *)
Record FetchResponse : Type := {
  ok : bool;
  status : nat;
  statusText : string;
  arrayBuffer : Eval (list byte)
}.

(** A network call, as it is recorded in the order the handler makes it.
    The OpenAI client carries the key it was built with. *)
Inductive Call : Type :=
| Fetch (url : string)
| TranscriptionsCreate (apiKey : JsValue) (params : TranscriptionParams)
| ChatCompletionsCreate (apiKey : JsValue) (params : ChatParams).

(** The collaborators: each awaited call settles with a value or rejects. *)
Record World : Type := {
  fetch : string -> Eval FetchResponse;
  audio_transcriptions_create : JsValue -> TranscriptionParams -> Eval JsValue;
  chat_completions_create : JsValue -> ChatParams -> Eval JsValue
}.

(** ** Requests and responses *)

Record Request : Type := { method : string; body : JsValue }.

(** What [res] has become when the handler returns: the headers set, the
    status, and the value given to [json] ([None] after [end()]). *)
Record Response : Type := {
  headers : list (string * string);
  statusCode : nat;
  payload : option JsValue
}.

Definition cors : list (string * string) :=
  [ ("Access-Control-Allow-Origin", "*");
    ("Access-Control-Allow-Methods", "POST, OPTIONS");
    ("Access-Control-Allow-Headers", "Content-Type") ].

(** [res.status(code).json(v)] and [res.status(code).end()], after the
    three [setHeader] calls that open the handler *)
Definition json (code : nat) (v : JsValue) : Response :=
  {| headers := cors; statusCode := code; payload := Some v |}.
Definition end_ (code : nat) : Response :=
  {| headers := cors; statusCode := code; payload := None |}.

(** ** Statements: state, throw and early return *)

Inductive Completion (A : Type) : Type :=
| Normal (a : A)
| Throw (error : Exn)
| Return (r : Response).
Arguments Normal {A} a.
Arguments Throw {A} error.
Arguments Return {A} r.

Definition Exec (S A : Type) : Type := S -> Completion A * S.

Definition ret {S A} (a : A) : Exec S A := fun s => (Normal a, s).
Definition throw {S A} (error : Exn) : Exec S A := fun s => (Throw error, s).
Definition return_ {S A} (r : Response) : Exec S A := fun s => (Return r, s).

Definition bind {S A B} (m : Exec S A) (k : A -> Exec S B) : Exec S B :=
  fun s =>
    match m s with
    | (Normal a, s') => k a s'
    | (Throw error, s') => (Throw error, s')
    | (Return r, s') => (Return r, s')
    end.

(** An expression evaluated as part of a statement *)
Definition eval {S A} (e : Eval A) : Exec S A :=
  match e with
  | inl error => throw error
  | inr a => ret a
  end.

Definition modify {S} (f : S -> S) : Exec S unit := fun s => (Normal tt, f s).

(** [await] of a network call: the call is recorded, then its outcome
    continues or throws. *)
Definition await {A} (c : Call) (outcome : Eval A) : Exec (list Call) A :=
  bind (modify (fun calls => (calls ++ [c])%list)) (fun _ => eval outcome).

Notation "x <- m ;; k" := (bind m (fun x => k))
  (at level 61, m at next level, right associativity).
Notation "m ;;; k" := (bind m (fun _ => k))
  (at level 61, right associativity).
Notation "' pat <- m ;; k" := (bind m (fun x => match x with pat => k end))
  (at level 61, pat pattern, m at next level, right associativity).

Definition obj (properties : list (string * JsValue)) : JsValue := JsObject properties.

(** ** The handler

    Console output is left out; the one log line whose argument can throw
    is kept as the property read it performs (see [transcribe]).

    [const { audioUrl, meetingName, participants, openaiApiKey } = req.body] *)
Record Fields : Type := {
  audioUrl : JsValue;
  meetingName : JsValue;
  participants : JsValue;
  openaiApiKey : JsValue
}.

Definition destructure (v : JsValue) : Eval Fields :=
  if nullish v then raise (CannotDestructure v)
  else value {| audioUrl := prop v "audioUrl";
                meetingName := prop v "meetingName";
                participants := prop v "participants";
                openaiApiKey := prop v "openaiApiKey" |}.

(** The two copies of the handler differ in Step 1 only. *)
Inductive Source : Type :=
| api_transcribe     (* src/api/transcribe.js *)
| unnamed_part_000.  (* src/unnamed/part_000 *)

(** *** Step 1: download the audio file *)

Definition is_string (pat : string) (v : JsValue) : bool :=
  match v with
  | JsString s => s =? pat
  | _ => false
  end.

(** [audioUrl.includes(pat)]: the method of a string, or of an array *)
Definition audioUrl_includes (url : JsValue) (pat : string) : Eval bool :=
  match url with
  | JsString s => value (includes s pat)
  | JsArray elements => value (existsb (is_string pat) elements)
  | JsUndefined | JsNull => raise (CannotReadProperty url "includes")
  | _ => raise (NotAFunction "audioUrl.includes")
  end.

(** [audioUrl + suffix] *)
Definition plus (url : JsValue) (suffix : string) : Eval JsValue :=
  let* s := ToString url in value (JsString (s ++ suffix)).

Definition resolveDownloadUrl (url : JsValue) : Eval JsValue :=
  let* vendor := audioUrl_includes url "workdrive.zoho" in
  if vendor : bool then
    let* query := audioUrl_includes url "?" in
    if query : bool then plus url "&directDownload=true"
    else plus url "?directDownload=true"
  else value url.

(** The chain of tests on [audioUrl.toLowerCase()], giving
    [(mimeType, fileName)] *)
Definition detectFileType (url : string) : string * string :=
  if includes (toLowerCase url) ".mp3" then ("audio/mpeg", "audio.mp3")
  else if includes (toLowerCase url) ".wav" then ("audio/wav", "audio.wav")
  else if includes (toLowerCase url) ".m4a" then ("audio/mp4", "audio.m4a")
  else if includes (toLowerCase url) ".mp4" then ("audio/mp4", "audio.mp4")
  else if includes (toLowerCase url) ".ogg" then ("audio/ogg", "audio.ogg")
  else if includes (toLowerCase url) ".webm" then ("audio/webm", "audio.webm")
  else ("audio/mp4", "audio.m4a").

Definition audioUrl_detectFileType (url : JsValue) : Eval (string * string) :=
  match url with
  | JsString s => value (detectFileType s)
  | JsUndefined | JsNull => raise (CannotReadProperty url "toLowerCase")
  | _ => raise (NotAFunction "audioUrl.toLowerCase")
  end.

Definition downloadAudio (src : Source) (w : World) (url : JsValue)
  : Exec (list Call) AudioFile :=
  match src with
  | api_transcribe =>
      downloadUrl <- eval (resolveDownloadUrl url) ;;
      target <- eval (ToString downloadUrl) ;;
      audioResponse <- await (Fetch target) (fetch w target) ;;
      if negb (ok audioResponse) then
        throw (Error ("Failed to download audio file: "
                      ++ decimal (status audioResponse) ++ " "
                      ++ statusText audioResponse))
      else
        (audioBuffer <- eval (arrayBuffer audioResponse) ;;
         ' (mimeType, name) <- eval (audioUrl_detectFileType url) ;;
         ret {| fileBits := audioBuffer; fileName := name; fileType := mimeType |})
  | unnamed_part_000 =>
      target <- eval (ToString url) ;;
      audioResponse <- await (Fetch target) (fetch w target) ;;
      if negb (ok audioResponse) then
        throw (Error "Failed to download audio file")
      else
        (audioBuffer <- eval (arrayBuffer audioResponse) ;;
         ret {| fileBits := audioBuffer; fileName := "audio.mp3";
                fileType := "audio/mpeg" |})
  end.

(** *** Step 2: transcribe with Whisper *)

Definition whisperParams (audioFile : AudioFile) : TranscriptionParams :=
  {| file := audioFile;
     transcription_model := "whisper-1";
     transcription_response_format := "verbose_json";
     timestamp_granularities := ["segment"] |}.

(** The log line after the call reads [transcription.segments?.length],
    which throws when [transcription] itself is [undefined] or [null]. *)
Definition transcribe (w : World) (apiKey : JsValue) (audioFile : AudioFile)
  : Exec (list Call) JsValue :=
  transcription <- await (TranscriptionsCreate apiKey (whisperParams audioFile))
                         (audio_transcriptions_create w apiKey (whisperParams audioFile)) ;;
  eval (get transcription "segments") ;;;
  ret transcription.

(** The request as it stands when Step 3 begins *)
Record Stage : Type := { fields : Fields; transcription : JsValue }.

Definition steps_1_2 (src : Source) (w : World) (req : Request)
  : Exec (list Call) Stage :=
  f <- eval (destructure (body req)) ;;
  if negb (truthy (audioUrl f)) then return_ (json 400 (obj [("error", JsString "audioUrl is required")]))
  else if negb (truthy (openaiApiKey f)) then
    return_ (json 400 (obj [("error", JsString "openaiApiKey is required")]))
  else
    (audioFile <- downloadAudio src w (audioUrl f) ;;
     t <- transcribe w (openaiApiKey f) audioFile ;;
     ret {| fields := f; transcription := t |}).

(** *** Step 3: match speakers, or summarise *)

Record Locals : Type := {
  matchedTranscript : JsValue;
  speakerSummaries : JsValue;
  meetingSummary : JsValue
}.

Definition set_matchedTranscript (v : JsValue) (vars : Locals) : Locals :=
  {| matchedTranscript := v;
     speakerSummaries := speakerSummaries vars;
     meetingSummary := meetingSummary vars |}.
Definition set_speakerSummaries (v : JsValue) (vars : Locals) : Locals :=
  {| matchedTranscript := matchedTranscript vars;
     speakerSummaries := v;
     meetingSummary := meetingSummary vars |}.
Definition set_meetingSummary (v : JsValue) (vars : Locals) : Locals :=
  {| matchedTranscript := matchedTranscript vars;
     speakerSummaries := speakerSummaries vars;
     meetingSummary := v |}.

(** The callback of [participants.map], applied from index [i] on *)
Fixpoint participantLines (i : nat) (ps : list JsValue) : Eval (list string) :=
  match ps with
  | [] => value []
  | p :: rest =>
      let* speaker := get p "speaker" in
      let* speakerText := ToString speaker in
      let* sampleQuote := get p "sampleQuote" in
      let* quoteText := ToString (or_else sampleQuote (JsString "Not provided")) in
      let* lines := participantLines (S i) rest in
      value ((decimal (i + 1) ++ ". " ++ quoted speakerText
              ++ " - Sample quote: " ++ quoted quoteText) :: lines)
  end.

(** [participants.map(...).join('\n')] *)
Definition participantList (ps : JsValue) : Eval string :=
  match ps with
  | JsArray elements =>
      let* lines := participantLines 0 elements in
      value (String.concat nl lines)
  | JsUndefined | JsNull => raise (CannotReadProperty ps "map")
  | _ => raise (NotAFunction "participants.map")
  end.

Definition matchingPrompt (list text : string) : string :=
  String.concat nl
    [ "You are analyzing a meeting transcript to identify speakers.";
      EmptyString;
      "PARTICIPANTS IN THIS MEETING:";
      list;
      EmptyString;
      "TRANSCRIPT:";
      text;
      EmptyString;
      "INSTRUCTIONS:";
      "1. Analyze the transcript and identify which parts were likely spoken by each participant";
      "2. Use the sample quotes (if provided) to help match speaking styles";
      "3. Rewrite the transcript with speaker labels";
      EmptyString;
      "OUTPUT FORMAT:";
      "Return a JSON object with:";
      "{";
      "  " ++ quoted "transcript" ++ ": "
        ++ quoted "The full transcript with speaker labels like 'Speaker Name: text...'" ++ ",";
      "  " ++ quoted "speakers" ++ ": [";
      "    {";
      "      " ++ quoted "name" ++ ": " ++ quoted "Speaker Name" ++ ",";
      "      " ++ quoted "wordCount" ++ ": 123,";
      "      " ++ quoted "summary" ++ ": "
        ++ quoted "Brief 2-3 sentence summary of what they said";
      "    }";
      "  ],";
      "  " ++ quoted "meetingSummary" ++ ": "
        ++ quoted "Overall 3-4 sentence summary of the meeting";
      "}" ].

Definition attributionParams (prompt : string) : ChatParams :=
  {| model := "gpt-4o";
     messages :=
       [ {| role := "system";
            content := JsString "You are an expert at analyzing meeting transcripts and identifying speakers. Always respond with valid JSON." |};
         {| role := "user"; content := JsString prompt |} ];
     response_format := Some "json_object";
     max_tokens := 4000 |}.

Definition summaryParams (text : JsValue) : ChatParams :=
  {| model := "gpt-4o";
     messages :=
       [ {| role := "system";
            content := JsString "Summarize this meeting transcript in 3-4 sentences." |};
         {| role := "user"; content := text |} ];
     response_format := None;
     max_tokens := 500 |}.

(** The request of Mode A, when the prompt can be built *)
Definition attributionRequest (ps text : JsValue) : Eval ChatParams :=
  let* list := participantList ps in
  let* transcript := ToString text in
  value (attributionParams (matchingPrompt list transcript)).

(** [response.choices[0].message.content] *)
Definition message_content (response : JsValue) : Eval JsValue :=
  let* choices := get response "choices" in
  let* choice := first choices in
  let* message := get choice "message" in
  get message "content".

(** [JSON.parse(content)] *)
Definition parse (v : JsValue) : Eval JsValue :=
  let* text := ToString v in
  match JSON_parse text with
  | Some parsed => value parsed
  | None => raise (UnexpectedToken text)
  end.

(** The body of the inner [try]: the three locals are assigned one after
    the other. *)
Definition readAnalysis (text gptResponse : JsValue) : Exec Locals unit :=
  reply <- eval (message_content gptResponse) ;;
  analysis <- eval (parse reply) ;;
  transcript <- eval (get analysis "transcript") ;;
  modify (set_matchedTranscript (or_else transcript text)) ;;;
  speakers <- eval (get analysis "speakers") ;;
  modify (set_speakerSummaries (or_else speakers (JsArray []))) ;;;
  summary <- eval (get analysis "meetingSummary") ;;
  modify (set_meetingSummary (or_else summary (JsString EmptyString))).

(** [try { ... } catch (parseError) { matchedTranscript = transcription.text }] *)
Definition tryReadAnalysis (text gptResponse : JsValue) (vars : Locals) : Locals :=
  match readAnalysis text gptResponse vars with
  | (Throw parseError, vars') => set_matchedTranscript text vars'
  | (_, vars') => vars'
  end.

(** [participants && participants.length > 0] *)
Definition hasParticipants (ps : JsValue) : Eval bool :=
  if truthy ps then gt_zero (prop ps "length") else value false.

Definition step_3 (w : World) (st : Stage) : Exec (list Call) Locals :=
  let text := prop (transcription st) "text" in
  let apiKey := openaiApiKey (fields st) in
  let vars := {| matchedTranscript := text;
                 speakerSummaries := JsArray [];
                 meetingSummary := JsString EmptyString |} in
  modeA <- eval (hasParticipants (participants (fields st))) ;;
  if modeA : bool then
    (params <- eval (attributionRequest (participants (fields st)) text) ;;
     gptResponse <- await (ChatCompletionsCreate apiKey params)
                          (chat_completions_create w apiKey params) ;;
     ret (tryReadAnalysis text gptResponse vars))
  else
    (summaryResponse <- await (ChatCompletionsCreate apiKey (summaryParams text))
                              (chat_completions_create w apiKey (summaryParams text)) ;;
     summary <- eval (message_content summaryResponse) ;;
     ret (set_meetingSummary summary vars)).

(** *** The result *)

Definition result (st : Stage) (vars : Locals) : JsValue :=
  obj [ ("success", JsBool true);
        ("meetingName", or_else (meetingName (fields st)) (JsString "Untitled Meeting"));
        ("transcript", matchedTranscript vars);
        ("rawTranscript", prop (transcription st) "text");
        ("segments", or_else (prop (transcription st) "segments") (JsArray []));
        ("speakers", speakerSummaries vars);
        ("meetingSummary", meetingSummary vars);
        ("duration", or_else (prop (transcription st) "duration")
                             (JsNumber (Number_of_nat 0)));
        ("language", or_else (prop (transcription st) "language") (JsString "en")) ].

Definition failure (error : Exn) : JsValue :=
  obj [ ("error", JsString "Transcription failed");
        ("message", JsString (error_message error)) ].

(** The body of the outer [try] *)
Definition try_block (src : Source) (w : World) (req : Request)
  : Exec (list Call) Response :=
  st <- steps_1_2 src w req ;;
  vars <- step_3 w st ;;
  return_ (json 200 (result st vars)).

(** [handler(req, res)]: the response sent and the network calls made *)
Definition handler (src : Source) (w : World) (req : Request)
  : Response * list Call :=
  if method req =? "OPTIONS" then (end_ 200, [])
  else if negb (method req =? "POST") then
    (json 405 (obj [("error", JsString "Method not allowed")]), [])
  else
    match try_block src w req [] with
    | (Normal r, calls) | (Return r, calls) => (r, calls)
    | (Throw error, calls) => (json 500 (failure error), calls)
    end.

End Embedding.

Arguments JsValue {num}.
Arguments Fault {num}.
Arguments Exn {num}.
Arguments Engine {num}.
Arguments Eval {num} A.
Arguments Completion {num} A.
Arguments Normal {num A} a.
Arguments Throw {num A} error.
Arguments Return {num A} r.

Notation "x <- m ;; k" := (bind m (fun x => k))
  (at level 61, m at next level, right associativity).
Notation "m ;;; k" := (bind m (fun _ => k))
  (at level 61, right associativity).

(** ** A concrete engine and world, for running the handler

    Numbers are the non-negative integers and [NaN]; [JSON.parse] knows the
    replies used in the runs below and rejects every other text. *)

#[local] Instance integers : Numbers := {|
  Number := option nat;
  Number_of_nat := Some;
  Number_is_falsy := fun x => match x with Some (S _) => false | _ => true end;
  Number_gt_zero := fun x => match x with Some n => (0 <? n)%nat | None => false end;
  Number_toString := fun x => match x with Some n => decimal n | None => "NaN" end;
  String_toNumber := fun s =>
    match s with
    | EmptyString => Some 0
    | _ => option_map Nat.of_uint (NilZero.uint_of_string s)
    end;
  Number_gt_zero_of_nat := fun n => eq_refl
|}.

(** [{"transcript":"","speakers":[],"meetingSummary":"Short sync."}] *)
Definition reply_empty_transcript : string :=
  "{" ++ quoted "transcript" ++ ":" ++ quoted EmptyString ++ ","
      ++ quoted "speakers" ++ ":[],"
      ++ quoted "meetingSummary" ++ ":" ++ quoted "Short sync." ++ "}".

(** [{"transcript":"Ann: hello world","speakers":[{"name":"Ann"}]}] *)
Definition reply_labelled : string :=
  "{" ++ quoted "transcript" ++ ":" ++ quoted "Ann: hello world" ++ ","
      ++ quoted "speakers" ++ ":[{" ++ quoted "name" ++ ":" ++ quoted "Ann" ++ "}]}".

#[local] Instance node : Engine := {|
  JSON_parse := fun text =>
    if text =? reply_empty_transcript then
      Some (JsObject [ ("transcript", JsString EmptyString);
                       ("speakers", JsArray []);
                       ("meetingSummary", JsString "Short sync.") ])
    else if text =? reply_labelled then
      Some (JsObject [ ("transcript", JsString "Ann: hello world");
                       ("speakers", JsArray [JsObject [("name", JsString "Ann")]]) ])
    else if text =? "null" then Some JsNull
    else None;
  fault_message := fun reason =>
    match reason with
    | CannotDestructure _ => "Cannot destructure property 'audioUrl' of 'req.body'"
    | CannotReadProperty _ key => "Cannot read properties (reading '" ++ key ++ "')"
    | NotAFunction callee => callee ++ " is not a function"
    | CannotConvertToPrimitive _ => "Cannot convert object to primitive value"
    | UnexpectedToken _ => "Unexpected token"
    end
|}.

Definition post (fields : list (string * JsValue)) : Request :=
  {| method := "POST"; body := JsObject fields |}.

Definition downloaded (code : nat) (text : string) : FetchResponse :=
  {| ok := ((200 <=? code) && (code <=? 299))%nat;
     status := code;
     statusText := text;
     arrayBuffer := value [Byte.x49; Byte.x44; Byte.x33] |}.

Definition chat_reply (reply : JsValue) : JsValue :=
  JsObject [("choices", JsArray [JsObject [("message", JsObject [("content", reply)])]])].

(** A world whose download answers [audioResponse], whose transcription
    service returns [transcription], and whose language model answers
    [reply] to every request. *)
Definition world (audioResponse : FetchResponse) (transcription reply : JsValue) : World :=
  {| fetch := fun _ => value audioResponse;
     audio_transcriptions_create := fun _ _ => value transcription;
     chat_completions_create := fun _ _ => value (chat_reply reply) |}.

Definition hello_world : JsValue :=
  JsObject [ ("text", JsString "hello world");
             ("segments", JsArray []);
             ("duration", JsNumber (Some 5));
             ("language", JsString "en") ].

Definition one_participant : JsValue :=
  JsArray [JsObject [("speaker", JsString "Ann")]].

Definition plain_request : Request :=
  post [ ("audioUrl", JsString "https://host/f.mp3");
         ("openaiApiKey", JsString "k") ].

Definition request_with_participants : Request :=
  post [ ("audioUrl", JsString "https://host/f.mp3");
         ("openaiApiKey", JsString "k");
         ("participants", one_participant) ].

Definition vendor_request : Request :=
  post [ ("audioUrl", JsString "https://workdrive.zoho.com/file/a1?x=1");
         ("openaiApiKey", JsString "k") ].

Definition wav_request : Request :=
  post [ ("audioUrl", JsString "https://host/call.wav");
         ("openaiApiKey", JsString "k") ].

(** A transcription whose [language] is present and empty *)
Definition hello_no_language : JsValue :=
  JsObject [ ("text", JsString "hello world"); ("language", JsString EmptyString) ].

(** A world given by the outcome of each of the three calls *)
Definition service_world (download : Eval FetchResponse)
  (transcribed replied : Eval JsValue) : World :=
  {| fetch := fun _ => download;
     audio_transcriptions_create := fun _ _ => transcribed;
     chat_completions_create := fun _ _ => replied |}.

(** A call that rejects with [new Error(message)] *)
Definition unavailable {A} (message : string) : Eval A := inl (Error message).

Definition titled_request : Request :=
  post [ ("audioUrl", JsString "https://host/f.mp3");
         ("openaiApiKey", JsString "k");
         ("meetingName", JsString "Weekly sync") ].

Definition request_with_participants_text : Request :=
  post [ ("audioUrl", JsString "https://host/f.mp3");
         ("openaiApiKey", JsString "k");
         ("participants", JsString "Ann, Bob") ].

Definition request_with_null_participant : Request :=
  post [ ("audioUrl", JsString "https://host/f.mp3");
         ("openaiApiKey", JsString "k");
         ("participants", JsArray [JsObject [("speaker", JsString "Ann")]; JsNull]) ].

Definition request_with_numeric_url : Request :=
  post [ ("audioUrl", JsNumber (Some 7)); ("openaiApiKey", JsString "k") ].

(** A reply without any choice *)
Definition no_choices : JsValue := JsObject [("choices", JsArray [])].

(** ** Vocabulary of the specification *)

Section Vocabulary.
Context {num : Numbers} {eng : Engine}.


(** "[v] if present, else [fallback]" *)
Definition if_present (v fallback : JsValue) : JsValue :=
  match v with
  | JsUndefined => fallback
  | _ => v
  end.

(** A POST request that passes validation, with the string [url] as its
    [audioUrl] *)
Definition accepted (req : Request) (url : string) : Prop :=
  method req = "POST"
  /\ nullish (body req) = false
  /\ prop (body req) "audioUrl" = JsString url
  /\ url <> EmptyString
  /\ truthy (prop (body req) "openaiApiKey") = true.

(** [extension] occurs in [url] up to the case of the letters of [url] *)
Definition occurs_ignoring_case (extension url : string) : Prop :=
  exists before found after,
    url = before ++ found ++ after /\ toLowerCase found = extension.

(** The extension table of the specification, in precedence order *)
Definition extension_table : list (string * (string * string)) :=
  [ (".mp3", ("audio/mpeg", "audio.mp3"));
    (".wav", ("audio/wav", "audio.wav"));
    (".m4a", ("audio/mp4", "audio.m4a"));
    (".mp4", ("audio/mp4", "audio.mp4"));
    (".ogg", ("audio/ogg", "audio.ogg"));
    (".webm", ("audio/webm", "audio.webm")) ].

(** First entry of [table] whose extension occurs in the lower-cased
    [url]; [fallback] when there is none *)
Fixpoint first_match (table : list (string * (string * string)))
  (fallback : string * string) (url : string) : string * string :=
  match table with
  | [] => fallback
  | (extension, kind) :: rest =>
      if includes (toLowerCase url) extension then kind
      else first_match rest fallback url
  end.

(** The file a source submits for transcription, for a string [url] *)
Definition submitted (src : Source) (url : string) (bits : list byte) : AudioFile :=
  match src with
  | api_transcribe =>
      {| fileBits := bits;
         fileName := snd (detectFileType url);
         fileType := fst (detectFileType url) |}
  | unnamed_part_000 =>
      {| fileBits := bits; fileName := "audio.mp3"; fileType := "audio/mpeg" |}
  end.

(** The URL a source fetches, for a string [url] *)
Definition fetched (src : Source) (url : string) : string :=
  match src with
  | api_transcribe =>
      if includes url "workdrive.zoho" then
        if includes url "?" then url ++ "&directDownload=true"
        else url ++ "?directDownload=true"
      else url
  | unnamed_part_000 => url
  end.

(** The message of the error thrown on a failed download *)
Definition download_failure (src : Source) (audioResponse : FetchResponse) : string :=
  match src with
  | api_transcribe =>
      "Failed to download audio file: " ++ decimal (status audioResponse)
        ++ " " ++ statusText audioResponse
  | unnamed_part_000 => "Failed to download audio file"
  end.

(** [out] is [v] when [v] is truthy, and [fallback] when [v] is falsy
    (absent, [null], [false], a zero, or the empty string) *)
Definition defaulted (v fallback out : JsValue) : Prop :=
  (truthy v = true -> out = v) /\ (truthy v = false -> out = fallback).

Definition is_object (v : JsValue) : bool :=
  match v with
  | JsObject _ => true
  | _ => false
  end.

(** The four fields read from a body that can be destructured *)
Definition body_fields (req : Request) : Fields :=
  {| audioUrl := prop (body req) "audioUrl";
     meetingName := prop (body req) "meetingName";
     participants := prop (body req) "participants";
     openaiApiKey := prop (body req) "openaiApiKey" |}.

(** The locals of Step 3 as they are declared *)
Definition declared (st : Stage) : Locals :=
  {| matchedTranscript := prop (transcription st) "text";
     speakerSummaries := JsArray [];
     meetingSummary := JsString EmptyString |}.

(** A statement that never completes by an early [return] *)
Definition no_return {S A} (m : Exec S A) : Prop :=
  forall s r s', m s <> (Return r, s').

(** A statement that only adds to the calls already made *)
Definition extends {A} (m : Exec (list Call) A) : Prop :=
  forall s c s', m s = (c, s') -> exists more, s' = (s ++ more)%list.

(** The own keys of an object, in order *)
Definition keys (v : JsValue) : list string :=
  match v with
  | JsObject properties => map fst properties
  | _ => []
  end.

(** A body that passes the two checks of the validation *)
Definition validated (req : Request) : Prop :=
  nullish (body req) = false
  /\ truthy (prop (body req) "audioUrl") = true
  /\ truthy (prop (body req) "openaiApiKey") = true.

(** A value with no [includes] method: neither a string nor an array *)
Definition lacks_includes (v : JsValue) : bool :=
  match v with
  | JsBool _ | JsNumber _ | JsObject _ => true
  | _ => false
  end.

Definition completes {A} (c : Completion A) : Prop :=
  match c with
  | Normal _ => True
  | _ => False
  end.

(** A statement that makes no call *)
Definition silent {A} (m : Exec (list Call) A) : Prop :=
  forall s c s', m s = (c, s') -> s' = s.

(** A statement that makes at most one call, of kind [P], and completes
    normally only after making it *)
Definition one_call (P : Call -> Prop) {A} (m : Exec (list Call) A) : Prop :=
  forall s c s',
    m s = (c, s') ->
    (s' = s /\ ~ completes c)
    \/ (exists call, P call /\ s' = (s ++ [call])%list).

(** The calls of a run: a prefix of download, transcription, language
    model, the two services being called with [apiKey] *)
Definition in_pipeline_order (apiKey : JsValue) (calls : list Call) : Prop :=
  calls = []
  \/ (exists target, calls = [Fetch target])
  \/ (exists target audioFile,
        calls = [Fetch target; TranscriptionsCreate apiKey (whisperParams audioFile)])
  \/ (exists target audioFile params,
        calls = [ Fetch target;
                  TranscriptionsCreate apiKey (whisperParams audioFile);
                  ChatCompletionsCreate apiKey params ]).

End Vocabulary.

(** * Properties *)

Section Properties.
Context {num : Numbers} {eng : Engine}.

Lemma prefix_app (p rest : string) : prefix p (p ++ rest) = true.
Proof.
  induction p as [|c p IH]; simpl.
  - now destruct rest.
  - destruct (ascii_dec c c) as [_|ne]; [exact IH | now elim ne].
Qed.

Lemma includes_unfold (s pat : string) :
  includes s pat
  = prefix pat s
    || match s with
       | EmptyString => false
       | String _ rest => includes rest pat
       end.
Proof. now destruct s. Qed.

Lemma includes_app (before pat after : string) :
  includes (before ++ pat ++ after) pat = true.
Proof.
  induction before as [|c before IH].
  - simpl append. rewrite includes_unfold, prefix_app. reflexivity.
  - simpl. rewrite IH. apply orb_true_r.
Qed.

Lemma prefix_split (p s : string) :
  prefix p s = true -> exists rest, s = p ++ rest.
Proof.
  revert s. induction p as [|c p IH]; intros s H.
  - now exists s.
  - destruct s as [|d s]; simpl in H; [discriminate|].
    destruct (ascii_dec c d) as [->|]; [|discriminate].
    destruct (IH _ H) as [rest ->]. now exists rest.
Qed.

Lemma includes_split (s pat : string) :
  includes s pat = true <-> exists before after, s = before ++ pat ++ after.
Proof.
  split.
  - induction s as [|c s IH]; rewrite includes_unfold; intros H;
      apply orb_true_iff in H as [H|H]; try discriminate.
    + destruct (prefix_split _ _ H) as [rest E]. now exists EmptyString, rest.
    + destruct (prefix_split _ _ H) as [rest E]. now exists EmptyString, rest.
    + destruct (IH H) as (before & after & ->). now exists (String c before), after.
  - intros (before & after & ->). apply includes_app.
Qed.

Lemma toLowerCase_app (a b : string) :
  toLowerCase (a ++ b) = toLowerCase a ++ toLowerCase b.
Proof. induction a as [|c a IH]; simpl; [reflexivity | now rewrite IH]. Qed.

Lemma toLowerCase_split (s x y : string) :
  toLowerCase s = x ++ y ->
  exists a b, s = a ++ b /\ toLowerCase a = x /\ toLowerCase b = y.
Proof.
  revert s. induction x as [|c x IH]; intros s H.
  - now exists EmptyString, s.
  - destruct s as [|d s]; simpl in H; [discriminate|].
    injection H as Hc H. destruct (IH _ H) as (a & b & -> & Ha & Hb).
    exists (String d a), b. simpl. now rewrite Hc, Ha.
Qed.

(** The test the handler applies to each extension is an occurrence up to
    the case of the letters of the URL. *)
Lemma includes_toLowerCase (extension url : string) :
  includes (toLowerCase url) extension = true
  <-> occurs_ignoring_case extension url.
Proof.
  rewrite includes_split. split.
  - intros (x & y & H).
    destruct (toLowerCase_split _ _ _ H) as (before & rest & -> & _ & Hrest).
    destruct (toLowerCase_split _ _ _ Hrest) as (found & after & -> & Hf & _).
    now exists before, found, after.
  - intros (before & found & after & -> & <-).
    exists (toLowerCase before), (toLowerCase after).
    now rewrite !toLowerCase_app.
Qed.

Lemma bind_run {S A B} (m : Exec S A) (k : A -> Exec S B) (s : S) :
  bind m k s
  = match m s with
    | (Normal a, s') => k a s'
    | (Throw error, s') => (Throw error, s')
    | (Return r, s') => (Return r, s')
    end.
Proof. reflexivity. Qed.

Lemma handler_post src w req :
  method req = "POST" ->
  handler src w req
  = match try_block src w req [] with
    | (Normal r, calls) | (Return r, calls) => (r, calls)
    | (Throw error, calls) => (json 500 (failure error), calls)
    end.
Proof. intros Hm. unfold handler. rewrite Hm. reflexivity. Qed.

Lemma steps_1_2_validated src w req :
  nullish (body req) = false ->
  truthy (prop (body req) "audioUrl") = true ->
  truthy (prop (body req) "openaiApiKey") = true ->
  steps_1_2 src w req
  = (audioFile <- downloadAudio src w (prop (body req) "audioUrl") ;;
     t <- transcribe w (prop (body req) "openaiApiKey") audioFile ;;
     ret {| fields := {| audioUrl := prop (body req) "audioUrl";
                         meetingName := prop (body req) "meetingName";
                         participants := prop (body req) "participants";
                         openaiApiKey := prop (body req) "openaiApiKey" |};
            transcription := t |}).
Proof.
  intros Hb Hu Hk. unfold steps_1_2, destructure. rewrite Hb. simpl.
  unfold bind at 1. simpl. rewrite Hu, Hk. reflexivity.
Qed.


(** *** Shape of the runs: no early return after validation, and a list of
    calls that only grows *)

Lemma no_return_ret {S A} (a : A) : no_return (@ret _ S A a).
Proof. intros s r s'. discriminate. Qed.

Lemma no_return_throw {S A} error : no_return (@throw _ S A error).
Proof. intros s r s'. discriminate. Qed.

Lemma no_return_eval {S A} (e : Eval A) : no_return (@eval _ S A e).
Proof. destruct e; [apply no_return_throw | apply no_return_ret]. Qed.

Lemma no_return_bind {S A B} (m : Exec S A) (k : A -> Exec S B) :
  no_return m -> (forall a, no_return (k a)) -> no_return (bind m k).
Proof.
  intros Hm Hk s r s'. unfold bind.
  destruct (m s) as [[a|error|r0] s0] eqn:E.
  - apply Hk.
  - discriminate.
  - elim (Hm _ _ _ E).
Qed.

Lemma no_return_modify {S} (f : S -> S) : no_return (modify f).
Proof. intros s r s'. discriminate. Qed.

Lemma no_return_await {A} c (outcome : Eval A) : no_return (await c outcome).
Proof.
  apply no_return_bind; [apply no_return_modify | intros _; apply no_return_eval].
Qed.

Lemma extends_ret {A} (a : A) : extends (ret a).
Proof. intros s c s' [= _ <-]. exists []. now rewrite app_nil_r. Qed.

Lemma extends_throw {A} error : extends (@throw _ _ A error).
Proof. intros s c s' [= _ <-]. exists []. now rewrite app_nil_r. Qed.

Lemma extends_eval {A} (e : Eval A) : extends (eval e).
Proof. destruct e; [apply extends_throw | apply extends_ret]. Qed.

Lemma extends_await {A} call (outcome : Eval A) : extends (await call outcome).
Proof.
  intros s c s'. unfold await, bind, modify. destruct outcome; simpl.
  all: intros [= _ <-]; now exists [call].
Qed.

Lemma extends_bind {A B} (m : Exec (list Call) A) (k : A -> Exec (list Call) B) :
  extends m -> (forall a, extends (k a)) -> extends (bind m k).
Proof.
  intros Hm Hk s c s'. unfold bind.
  destruct (m s) as [[a|error|r0] s0] eqn:E; destruct (Hm _ _ _ E) as [m1 ->].
  - intros H. destruct (Hk _ _ _ _ H) as [m2 ->].
    exists (m1 ++ m2)%list. now rewrite app_assoc.
  - intros [= _ <-]. now exists m1.
  - intros [= _ <-]. now exists m1.
Qed.

Ltac shape :=
  repeat first
    [ apply no_return_ret | apply no_return_throw | apply no_return_eval
    | apply no_return_await | apply no_return_modify
    | apply extends_ret | apply extends_throw | apply extends_eval
    | apply extends_await
    | apply no_return_bind; [|intros ?]
    | apply extends_bind; [|intros ?]
    | match goal with
      | |- no_return (if ?b then _ else _) => destruct b
      | |- extends (if ?b then _ else _) => destruct b
      | |- no_return (match ?x with _ => _ end) => destruct x
      | |- extends (match ?x with _ => _ end) => destruct x
      end ].

Lemma downloadAudio_no_return src w url : no_return (downloadAudio src w url).
Proof. destruct src; unfold downloadAudio; shape. Qed.

Lemma downloadAudio_extends src w url : extends (downloadAudio src w url).
Proof. destruct src; unfold downloadAudio; shape. Qed.

Lemma transcribe_no_return w apiKey audioFile :
  no_return (transcribe w apiKey audioFile).
Proof. unfold transcribe; shape. Qed.

Lemma step_3_no_return w st : no_return (step_3 w st).
Proof. unfold step_3; shape. Qed.

Lemma step_3_extends w st : extends (step_3 w st).
Proof. unfold step_3; shape. Qed.

(** *** Steps 1 and 2 *)

Lemma transcribe_inv w apiKey audioFile calls t calls' :
  transcribe w apiKey audioFile calls = (Normal t, calls') ->
  audio_transcriptions_create w apiKey (whisperParams audioFile) = value t
  /\ nullish t = false
  /\ calls' = (calls ++ [TranscriptionsCreate apiKey (whisperParams audioFile)])%list.
Proof.
  unfold transcribe, await, bind, modify, get. simpl.
  destruct (audio_transcriptions_create w apiKey (whisperParams audioFile))
    as [error|t0]; simpl; [discriminate|].
  destruct (nullish t0) eqn:N; simpl; [discriminate|].
  intros [= <- <-]. auto.
Qed.

Lemma steps_1_2_inv src w req st calls :
  steps_1_2 src w req [] = (Normal st, calls) ->
  fields st = body_fields req
  /\ nullish (transcription st) = false
  /\ exists audioFile before,
       audio_transcriptions_create w (openaiApiKey (fields st)) (whisperParams audioFile)
       = value (transcription st)
       /\ calls = (before ++ [TranscriptionsCreate (openaiApiKey (fields st))
                                                   (whisperParams audioFile)])%list.
Proof.
  unfold steps_1_2, destructure.
  destruct (nullish (body req)); simpl; [discriminate|].
  unfold bind at 1. simpl. fold (body_fields req).
  destruct (truthy (prop (body req) "audioUrl")); simpl; [|discriminate].
  destruct (truthy (prop (body req) "openaiApiKey")); simpl; [|discriminate].
  unfold bind at 1.
  destruct (downloadAudio src w (prop (body req) "audioUrl") [])
    as [[audioFile|error|r] calls1]; [|discriminate..].
  unfold bind at 1.
  destruct (transcribe w (prop (body req) "openaiApiKey") audioFile calls1)
    as [[t|error|r] calls2] eqn:T; [|discriminate..].
  intros [= <- <-]. simpl.
  destruct (transcribe_inv _ _ _ _ _ _ T) as (Ht & Hn & ->).
  repeat split; auto. now exists audioFile, calls1.
Qed.

Lemma steps_1_2_return src w req r calls :
  steps_1_2 src w req [] = (Return r, calls) -> statusCode r = 400.
Proof.
  unfold steps_1_2, destructure.
  destruct (nullish (body req)); simpl; [discriminate|].
  unfold bind at 1. simpl.
  destruct (truthy (prop (body req) "audioUrl")); simpl;
    [|now intros [= <- _]].
  destruct (truthy (prop (body req) "openaiApiKey")); simpl;
    [|now intros [= <- _]].
  intros H. exfalso. revert H.
  apply no_return_bind; [apply downloadAudio_no_return|intros a].
  apply no_return_bind; [apply transcribe_no_return|intros t].
  apply no_return_ret.
Qed.

(** *** The outer [try] *)

Lemma handler_success src w req st calls vars calls' :
  method req = "POST" ->
  steps_1_2 src w req [] = (Normal st, calls) ->
  step_3 w st calls = (Normal vars, calls') ->
  handler src w req = (json 200 (result st vars), calls').
Proof.
  intros Hm H12 H3. rewrite (handler_post _ _ _ Hm).
  unfold try_block, bind. rewrite H12, H3. reflexivity.
Qed.

Lemma handler_success_inv src w req r calls :
  handler src w req = (json 200 r, calls) ->
  exists st before vars,
    method req = "POST"
    /\ steps_1_2 src w req [] = (Normal st, before)
    /\ step_3 w st before = (Normal vars, calls)
    /\ r = result st vars.
Proof.
  unfold handler.
  destruct (method req =? "OPTIONS") eqn:Ho; [discriminate|].
  destruct (method req =? "POST") eqn:Hp; simpl; [|discriminate].
  apply String.eqb_eq in Hp.
  unfold try_block, bind.
  destruct (steps_1_2 src w req []) as [[st|error|r0] before] eqn:H12.
  - destruct (step_3 w st before) as [[vars|error|r0] after] eqn:H3.
    + intros [= <- <-]. now exists st, before, vars.
    + discriminate.
    + elim (step_3_no_return _ _ _ _ _ H3).
  - discriminate.
  - intros [= H _]. apply steps_1_2_return in H12.
    rewrite H in H12. discriminate.
Qed.

(** *** Step 3 *)

Lemma hasParticipants_absent_or_empty ps :
  ps = JsUndefined \/ ps = JsArray [] -> hasParticipants ps = value false.
Proof.
  intros [->| ->]; [reflexivity|].
  unfold hasParticipants. simpl. now rewrite Number_gt_zero_of_nat.
Qed.

Lemma hasParticipants_nonempty p ps :
  hasParticipants (JsArray (p :: ps)) = value true.
Proof.
  unfold hasParticipants. simpl. now rewrite Number_gt_zero_of_nat.
Qed.

Lemma step_3_summary w st calls summaryResponse summary :
  hasParticipants (participants (fields st)) = value false ->
  chat_completions_create w (openaiApiKey (fields st))
    (summaryParams (prop (transcription st) "text")) = value summaryResponse ->
  message_content summaryResponse = value summary ->
  step_3 w st calls
  = (Normal (set_meetingSummary summary (declared st)),
     (calls ++ [ChatCompletionsCreate (openaiApiKey (fields st))
                  (summaryParams (prop (transcription st) "text"))])%list).
Proof.
  intros Hp Hc Hm. unfold step_3. rewrite Hp. unfold bind at 1. simpl.
  unfold await, bind, modify. simpl. rewrite Hc. simpl. rewrite Hm. reflexivity.
Qed.

Lemma step_3_attribution w st calls params gptResponse :
  hasParticipants (participants (fields st)) = value true ->
  attributionRequest (participants (fields st)) (prop (transcription st) "text")
  = value params ->
  chat_completions_create w (openaiApiKey (fields st)) params = value gptResponse ->
  step_3 w st calls
  = (Normal (tryReadAnalysis (prop (transcription st) "text") gptResponse (declared st)),
     (calls ++ [ChatCompletionsCreate (openaiApiKey (fields st)) params])%list).
Proof.
  intros Hp Hr Hc. unfold step_3. rewrite Hp. unfold bind at 1. simpl.
  rewrite Hr. unfold bind at 1. simpl.
  unfold await, bind, modify. simpl. rewrite Hc. reflexivity.
Qed.

Lemma tryReadAnalysis_unparsable text gptResponse reply vars :
  message_content gptResponse = value reply ->
  (forall s, ToString reply = value s -> JSON_parse s = None) ->
  tryReadAnalysis text gptResponse vars = set_matchedTranscript text vars.
Proof.
  intros Hm Hp. unfold tryReadAnalysis, readAnalysis. rewrite Hm.
  unfold bind at 1. simpl. unfold parse.
  destruct (ToString reply) as [error|s] eqn:Es; simpl.
  - reflexivity.
  - rewrite (Hp s eq_refl). reflexivity.
Qed.

Lemma tryReadAnalysis_null text gptResponse reply analysis vars :
  message_content gptResponse = value reply ->
  parse reply = value analysis ->
  nullish analysis = true ->
  tryReadAnalysis text gptResponse vars = set_matchedTranscript text vars.
Proof.
  intros Hm Hp Hn. unfold tryReadAnalysis, readAnalysis. rewrite Hm.
  unfold bind at 1. simpl. rewrite Hp. unfold bind at 1. simpl.
  unfold get. rewrite Hn. reflexivity.
Qed.

Lemma tryReadAnalysis_parsed text gptResponse reply analysis vars :
  message_content gptResponse = value reply ->
  parse reply = value analysis ->
  nullish analysis = false ->
  tryReadAnalysis text gptResponse vars
  = {| matchedTranscript := or_else (prop analysis "transcript") text;
       speakerSummaries := or_else (prop analysis "speakers") (JsArray []);
       meetingSummary := or_else (prop analysis "meetingSummary") (JsString EmptyString) |}.
Proof.
  intros Hm Hp Hn. unfold tryReadAnalysis, readAnalysis. rewrite Hm.
  unfold bind at 1. simpl. rewrite Hp. unfold bind at 1. simpl.
  unfold get. rewrite Hn. reflexivity.
Qed.


Lemma or_else_defaulted v fallback : defaulted v fallback (or_else v fallback).
Proof. split; intros H; unfold or_else; now rewrite H. Qed.

(** C1. When a request with a non-empty participants list has reached
    Step 3, the attribution call returns, and the content of the reply is a
    string that [JSON.parse] rejects, the handler still answers 200 with
    [success: true]; in the result [transcript] (and [rawTranscript]) is the
    text of the transcription, [speakers] is the empty array and
    [meetingSummary] is the empty string.  The only call added is the
    attribution call.  This holds for both copies of the handler. *)
Theorem unparsable_attribution_fails_soft
  src w req st calls p ps params gptResponse reply :
  method req = "POST" ->
  steps_1_2 src w req [] = (Normal st, calls) ->
  prop (body req) "participants" = JsArray (p :: ps) ->
  attributionRequest (JsArray (p :: ps)) (prop (transcription st) "text")
  = value params ->
  chat_completions_create w (openaiApiKey (fields st)) params = value gptResponse ->
  message_content gptResponse = value (JsString reply) ->
  JSON_parse reply = None ->
  exists r,
    handler src w req
    = (json 200 r,
       (calls ++ [ChatCompletionsCreate (openaiApiKey (fields st)) params])%list)
    /\ prop r "success" = JsBool true
    /\ prop r "transcript" = prop (transcription st) "text"
    /\ prop r "rawTranscript" = prop (transcription st) "text"
    /\ prop r "speakers" = JsArray []
    /\ prop r "meetingSummary" = JsString EmptyString.
Proof.
  intros Hm H12 Hps Hreq Hc Hreply Hparse.
  destruct (steps_1_2_inv _ _ _ _ _ H12) as (Hf & _).
  assert (Hp : participants (fields st) = JsArray (p :: ps))
    by (rewrite Hf; exact Hps).
  assert (Htry : tryReadAnalysis (prop (transcription st) "text") gptResponse (declared st)
                 = set_matchedTranscript (prop (transcription st) "text") (declared st)).
  { apply (tryReadAnalysis_unparsable _ _ _ _ Hreply).
    simpl. intros s [= <-]. exact Hparse. }
  exists (result st (set_matchedTranscript (prop (transcription st) "text") (declared st))).
  split.
  - apply (handler_success _ _ _ _ _ _ _ Hm H12).
    rewrite <- Htry.
    apply step_3_attribution; rewrite ?Hp; auto using hasParticipants_nonempty.
  - repeat split; reflexivity.
Qed.

(** C2. Whenever the handler answers 200 with a result, the transcription
    service was called and returned some [t], and [rawTranscript] in the
    result is [t.text] as returned: whether the attribution was parsed,
    failed to parse, or was skipped makes no difference.  This holds for
    both copies of the handler. *)
Theorem rawTranscript_verbatim src w req r calls :
  handler src w req = (json 200 r, calls) ->
  exists apiKey audioFile t,
    In (TranscriptionsCreate apiKey (whisperParams audioFile)) calls
    /\ audio_transcriptions_create w apiKey (whisperParams audioFile) = value t
    /\ prop r "rawTranscript" = prop t "text".
Proof.
  intros H.
  destruct (handler_success_inv _ _ _ _ _ H) as (st & before & vars & _ & H12 & H3 & ->).
  destruct (steps_1_2_inv _ _ _ _ _ H12) as (_ & _ & audioFile & pre & Ht & ->).
  destruct (step_3_extends _ _ _ _ _ H3) as [more ->].
  exists (openaiApiKey (fields st)), audioFile, (transcription st).
  repeat split; auto.
  rewrite !in_app_iff. left. right. now left.
Qed.

(** C5. When a request whose [participants] field is absent or the empty
    array has reached Step 3 and the summarisation call returns a reply
    with content [summary], the handler answers 200 with a result whose
    [speakers] is the empty array, whose [transcript] equals its
    [rawTranscript], and whose [meetingSummary] is [summary].  The call made
    is the summary request of Mode B, not an attribution request.  This
    holds for both copies of the handler. *)
Theorem no_participants_summary_only
  src w req st calls summaryResponse summary :
  method req = "POST" ->
  steps_1_2 src w req [] = (Normal st, calls) ->
  prop (body req) "participants" = JsUndefined
  \/ prop (body req) "participants" = JsArray [] ->
  chat_completions_create w (openaiApiKey (fields st))
    (summaryParams (prop (transcription st) "text")) = value summaryResponse ->
  message_content summaryResponse = value summary ->
  exists r,
    handler src w req
    = (json 200 r,
       (calls ++ [ChatCompletionsCreate (openaiApiKey (fields st))
                    (summaryParams (prop (transcription st) "text"))])%list)
    /\ prop r "speakers" = JsArray []
    /\ prop r "transcript" = prop r "rawTranscript"
    /\ prop r "rawTranscript" = prop (transcription st) "text"
    /\ prop r "meetingSummary" = summary.
Proof.
  intros Hm H12 Hps Hc Hs.
  destruct (steps_1_2_inv _ _ _ _ _ H12) as (Hf & _).
  assert (Hp : hasParticipants (participants (fields st)) = value false)
    by (apply hasParticipants_absent_or_empty; rewrite Hf; exact Hps).
  exists (result st (set_meetingSummary summary (declared st))). split.
  - apply (handler_success _ _ _ _ _ _ _ Hm H12).
    apply (step_3_summary _ _ _ _ _ Hp Hc Hs).
  - repeat split; reflexivity.
Qed.

(** C8 (as amended). When the reply of the attribution call parses to
    [analysis], the result takes [transcript] from [analysis.transcript]
    when that is truthy and from the raw transcript otherwise, [speakers]
    from [analysis.speakers] when truthy and the empty array otherwise,
    [meetingSummary] from [analysis.meetingSummary] when truthy and the
    empty string otherwise.  A field that is present but falsy (an empty
    string, [null]) is replaced like an absent one.  This holds for both
    copies of the handler. *)
Theorem parsed_attribution_defaults
  src w req st calls p ps params gptResponse reply analysis :
  method req = "POST" ->
  steps_1_2 src w req [] = (Normal st, calls) ->
  prop (body req) "participants" = JsArray (p :: ps) ->
  attributionRequest (JsArray (p :: ps)) (prop (transcription st) "text")
  = value params ->
  chat_completions_create w (openaiApiKey (fields st)) params = value gptResponse ->
  message_content gptResponse = value reply ->
  parse reply = value analysis ->
  exists r,
    handler src w req
    = (json 200 r,
       (calls ++ [ChatCompletionsCreate (openaiApiKey (fields st)) params])%list)
    /\ defaulted (prop analysis "transcript") (prop (transcription st) "text")
                 (prop r "transcript")
    /\ defaulted (prop analysis "speakers") (JsArray []) (prop r "speakers")
    /\ defaulted (prop analysis "meetingSummary") (JsString EmptyString)
                 (prop r "meetingSummary").
Proof.
  intros Hm H12 Hps Hreq Hc Hreply Hparse.
  destruct (steps_1_2_inv _ _ _ _ _ H12) as (Hf & _).
  assert (Hp : participants (fields st) = JsArray (p :: ps))
    by (rewrite Hf; exact Hps).
  exists (result st (tryReadAnalysis (prop (transcription st) "text") gptResponse
                                     (declared st))).
  split.
  - apply (handler_success _ _ _ _ _ _ _ Hm H12).
    apply step_3_attribution; rewrite ?Hp; auto using hasParticipants_nonempty.
  - destruct (nullish analysis) eqn:N.
    + rewrite (tryReadAnalysis_null _ _ _ _ (declared st) Hreply Hparse N).
      destruct analysis; try discriminate; simpl;
        repeat split; intros; try discriminate; reflexivity.
    + rewrite (tryReadAnalysis_parsed _ _ _ _ (declared st) Hreply Hparse N).
      repeat apply conj; apply or_else_defaulted.
Qed.

(** C9 (as amended). In every result, [segments], [duration] and
    [language] are those of the transcription service's response when they
    are truthy there, and the empty array, [0] and "en" when they are
    missing or falsy.  A field that is present but falsy (an empty
    [language], [null]) is replaced by the default, not passed through.
    This holds for both copies of the handler. *)
Theorem transcription_fields_defaulted src w req st calls vars calls' :
  method req = "POST" ->
  steps_1_2 src w req [] = (Normal st, calls) ->
  step_3 w st calls = (Normal vars, calls') ->
  exists r audioFile,
    handler src w req = (json 200 r, calls')
    /\ audio_transcriptions_create w (openaiApiKey (fields st)) (whisperParams audioFile)
       = value (transcription st)
    /\ defaulted (prop (transcription st) "segments") (JsArray []) (prop r "segments")
    /\ defaulted (prop (transcription st) "duration") (JsNumber (Number_of_nat 0))
                 (prop r "duration")
    /\ defaulted (prop (transcription st) "language") (JsString "en")
                 (prop r "language").
Proof.
  intros Hm H12 H3.
  destruct (steps_1_2_inv _ _ _ _ _ H12) as (_ & _ & audioFile & pre & Ht & _).
  exists (result st vars), audioFile. split.
  - apply (handler_success _ _ _ _ _ _ _ Hm H12 H3).
  - split; [exact Ht|]. repeat apply conj; apply or_else_defaulted.
Qed.

(** *** Step 1 on a string URL *)

Lemma append_empty_r (s : string) : s ++ EmptyString = s.
Proof. induction s as [|c s IH]; simpl; [reflexivity | now rewrite IH]. Qed.

Lemma append_assoc (a b c : string) : (a ++ b) ++ c = a ++ b ++ c.
Proof. induction a as [|x a IH]; simpl; [reflexivity | now rewrite IH]. Qed.

Lemma includes_suffix (before pat : string) : includes (before ++ pat) pat = true.
Proof. rewrite <- (append_empty_r pat) at 1. apply includes_app. Qed.

Lemma downloadAudio_string src w url calls :
  downloadAudio src w (JsString url) calls
  = (match fetch w (fetched src url) with
     | inl error => Throw error
     | inr audioResponse =>
         if ok audioResponse then
           match arrayBuffer audioResponse with
           | inl error => Throw error
           | inr bits => Normal (submitted src url bits)
           end
         else Throw (Error (download_failure src audioResponse))
     end,
     (calls ++ [Fetch (fetched src url)])%list).
Proof.
  destruct src; unfold downloadAudio, resolveDownloadUrl, fetched; simpl.
  - unfold plus.
    destruct (includes url "workdrive.zoho"); [destruct (includes url "?")|];
      simpl; unfold bind at 1; simpl; unfold bind at 1; simpl;
      unfold await, bind, modify; simpl.
    all: match goal with
         | |- context [fetch ?w0 ?t] => destruct (fetch w0 t) as [e|r]
         end; simpl; [reflexivity|].
    all: destruct (ok r); simpl; [|reflexivity].
    all: destruct (arrayBuffer r); simpl; [reflexivity|].
    all: unfold submitted; destruct (detectFileType url); reflexivity.
  - unfold bind at 1. simpl. unfold await, bind, modify. simpl.
    destruct (fetch w url) as [e|r]; simpl; [reflexivity|].
    destruct (ok r); simpl; [|reflexivity].
    destruct (arrayBuffer r); reflexivity.
Qed.

Lemma accepted_steps_1_2 src w req url :
  accepted req url ->
  steps_1_2 src w req
  = (audioFile <- downloadAudio src w (JsString url) ;;
     t <- transcribe w (prop (body req) "openaiApiKey") audioFile ;;
     ret {| fields := body_fields req; transcription := t |}).
Proof.
  intros (_ & Hb & Hu & Hne & Hk).
  assert (Ht : truthy (prop (body req) "audioUrl") = true).
  { rewrite Hu. simpl. destruct url; [now elim Hne | reflexivity]. }
  rewrite (steps_1_2_validated _ _ _ Hb Ht Hk).
  unfold body_fields. rewrite Hu. reflexivity.
Qed.

Lemma extends_return {A} r : extends (@return_ _ _ A r).
Proof. intros s c s' [= _ <-]. exists []. now rewrite app_nil_r. Qed.

Lemma transcribe_extends w apiKey audioFile : extends (transcribe w apiKey audioFile).
Proof. unfold transcribe; shape. Qed.

(** Once a request is accepted, the first call is the download, whatever
    happens next. *)
Lemma accepted_fetches src w req url :
  accepted req url ->
  exists rest, snd (handler src w req) = Fetch (fetched src url) :: rest.
Proof.
  intros Hacc. pose proof Hacc as (Hm & _).
  rewrite (handler_post _ _ _ Hm).
  assert (F : forall c calls, try_block src w req [] = (c, calls) ->
              exists rest, calls = Fetch (fetched src url) :: rest).
  { unfold try_block. rewrite (accepted_steps_1_2 _ _ _ _ Hacc).
    intros c calls. unfold bind at 1. unfold bind at 1.
    rewrite downloadAudio_string. simpl.
    destruct (fetch w (fetched src url)) as [e|r]; [intros [= _ <-]; eauto|].
    destruct (ok r); [|intros [= _ <-]; eauto].
    destruct (arrayBuffer r) as [e|bits]; [intros [= _ <-]; eauto|].
    match goal with
    | |- context [bind ?m ?k [?call]] =>
        destruct (bind m k [call]) as [[st|e|r0] s1] eqn:T
    end.
    all: assert (exists more, s1 = ([Fetch (fetched src url)] ++ more)%list) as [m1 ->]
      by (revert T; apply extends_bind;
          [apply transcribe_extends | intros; apply extends_ret]).
    2,3: intros [= _ <-]; eauto.
    intros H.
    assert (exists more, calls = (([Fetch (fetched src url)] ++ m1) ++ more)%list)
      as [m2 ->]
      by (revert H; apply extends_bind;
          [apply step_3_extends | intros; apply extends_return]).
    simpl. eauto. }
  destruct (try_block src w req []) as [[r|e|r] calls] eqn:T;
    destruct (F _ _ eq_refl) as [rest ->]; simpl; eauto.
Qed.

Lemma transcribe_calls w apiKey audioFile calls c calls' :
  transcribe w apiKey audioFile calls = (c, calls') ->
  calls' = (calls ++ [TranscriptionsCreate apiKey (whisperParams audioFile)])%list.
Proof.
  unfold transcribe, await, bind, modify, get. simpl.
  destruct (audio_transcriptions_create w apiKey (whisperParams audioFile))
    as [error|t]; simpl; [now intros [= _ <-]|].
  destruct (nullish t); simpl; now intros [= _ <-].
Qed.

(** Once the download has succeeded, the second call submits the file to
    the transcription service, whatever happens next. *)
Lemma accepted_transcribes src w req url audioResponse bits :
  accepted req url ->
  fetch w (fetched src url) = value audioResponse ->
  ok audioResponse = true ->
  arrayBuffer audioResponse = value bits ->
  exists rest,
    snd (handler src w req)
    = Fetch (fetched src url)
      :: TranscriptionsCreate (prop (body req) "openaiApiKey")
           (whisperParams (submitted src url bits))
      :: rest.
Proof.
  intros Hacc Hf Hok Hbits. pose proof Hacc as (Hm & _).
  rewrite (handler_post _ _ _ Hm).
  unfold try_block. rewrite (accepted_steps_1_2 _ _ _ _ Hacc).
  rewrite !bind_run, downloadAudio_string, Hf. simpl. rewrite Hok, Hbits. simpl.
  rewrite bind_run.
  destruct (transcribe w (prop (body req) "openaiApiKey") (submitted src url bits)
              [Fetch (fetched src url)]) as [[t|e|r0] s1] eqn:T;
    rewrite (transcribe_calls _ _ _ _ _ _ T); simpl; eauto.
  match goal with
  | |- context [bind ?m ?k ?s] => destruct (bind m k s) as [c s2] eqn:B
  end.
  assert (exists more, s2 = ([Fetch (fetched src url);
                              TranscriptionsCreate (prop (body req) "openaiApiKey")
                                (whisperParams (submitted src url bits))] ++ more)%list)
    as [more ->]
    by (revert B; apply extends_bind;
        [apply step_3_extends | intros; apply extends_return]).
  destruct c; simpl; eauto.
Qed.

(** What it takes for an accepted request to reach Step 3 *)
Lemma accepted_reaches_step_3 src w req url audioResponse bits t :
  accepted req url ->
  fetch w (fetched src url) = value audioResponse ->
  ok audioResponse = true ->
  arrayBuffer audioResponse = value bits ->
  audio_transcriptions_create w (prop (body req) "openaiApiKey")
    (whisperParams (submitted src url bits)) = value t ->
  nullish t = false ->
  steps_1_2 src w req []
  = (Normal {| fields := body_fields req; transcription := t |},
     [ Fetch (fetched src url);
       TranscriptionsCreate (prop (body req) "openaiApiKey")
         (whisperParams (submitted src url bits)) ]).
Proof.
  intros Hacc Hf Hok Hbits Ht Hn.
  rewrite (accepted_steps_1_2 _ _ _ _ Hacc).
  rewrite bind_run, downloadAudio_string, Hf. simpl. rewrite Hok, Hbits. simpl.
  unfold transcribe, await, get. rewrite !bind_run. simpl. rewrite Ht. simpl.
  rewrite Hn. reflexivity.
Qed.

Lemma detectFileType_first_match url :
  detectFileType url = first_match extension_table ("audio/mp4", "audio.m4a") url.
Proof. reflexivity. Qed.

(** C3 (as amended). In [src/api/transcribe.js] the MIME type and file
    name depend on the URL string alone: the extensions .mp3, .wav, .m4a,
    .mp4, .ogg, .webm are looked for in that order as substrings of the URL
    up to the case of its letters, the first one found decides the pair, and
    a URL with none of them gives audio/mp4 and audio.m4a; the file
    submitted for transcription carries that pair.  The copy in
    [src/unnamed/part_000] infers nothing: whatever the URL, it submits the
    bytes as audio/mpeg under the name audio.mp3. *)
Theorem file_type_from_url :
  (forall url,
     detectFileType url = first_match extension_table ("audio/mp4", "audio.m4a") url)
  /\ (forall extension url,
        includes (toLowerCase url) extension = true
        <-> occurs_ignoring_case extension url)
  /\ (forall src w req url audioResponse bits,
        accepted req url ->
        fetch w (fetched src url) = value audioResponse ->
        ok audioResponse = true ->
        arrayBuffer audioResponse = value bits ->
        exists audioFile rest,
          snd (handler src w req)
          = Fetch (fetched src url)
            :: TranscriptionsCreate (prop (body req) "openaiApiKey")
                 (whisperParams audioFile)
            :: rest
          /\ fileBits audioFile = bits
          /\ (fileType audioFile, fileName audioFile)
             = match src with
               | api_transcribe =>
                   first_match extension_table ("audio/mp4", "audio.m4a") url
               | unnamed_part_000 => ("audio/mpeg", "audio.mp3")
               end).
Proof.
  split; [exact detectFileType_first_match|].
  split; [exact includes_toLowerCase|].
  intros src w req url audioResponse bits Hacc Hf Hok Hbits.
  destruct (accepted_transcribes _ _ _ _ _ _ Hacc Hf Hok Hbits) as [rest H].
  exists (submitted src url bits), rest.
  split; [exact H|]. destruct src.
  - split; [reflexivity|]. unfold submitted. cbn [fileType fileName].
    change (first_match extension_table ("audio/mp4", "audio.m4a") url)
      with (detectFileType url).
    now destruct (detectFileType url).
  - now split.
Qed.

(** C6 (as amended). When the download of an accepted request answers
    with a non-success status, the handler answers 500 with the body
    [{ error: "Transcription failed", message }] and the download is the
    only network call: neither the transcription service nor the language
    model is called.  In [src/api/transcribe.js] the message is "Failed to
    download audio file: " followed by the status and the status text, so
    it contains both; in [src/unnamed/part_000] it is the fixed text
    "Failed to download audio file". *)
Theorem download_failure_reported src w req url audioResponse :
  accepted req url ->
  fetch w (fetched src url) = value audioResponse ->
  ok audioResponse = false ->
  exists message,
    handler src w req
    = (json 500 (obj [ ("error", JsString "Transcription failed");
                       ("message", JsString message) ]),
       [Fetch (fetched src url)])
    /\ match src with
       | api_transcribe =>
           message = "Failed to download audio file: "
                     ++ decimal (status audioResponse) ++ " "
                     ++ statusText audioResponse
           /\ includes message (decimal (status audioResponse)) = true
           /\ includes message (statusText audioResponse) = true
       | unnamed_part_000 => message = "Failed to download audio file"
       end.
Proof.
  intros Hacc Hf Hok. pose proof Hacc as (Hm & _).
  exists (download_failure src audioResponse). split.
  - rewrite (handler_post _ _ _ Hm).
    unfold try_block. rewrite (accepted_steps_1_2 _ _ _ _ Hacc).
    rewrite !bind_run, downloadAudio_string, Hf. simpl. rewrite Hok. reflexivity.
  - destruct src; [|reflexivity]. unfold download_failure.
    split; [reflexivity|]. split.
    + apply includes_app.
    + rewrite <- !append_assoc. apply includes_suffix.
Qed.

(** C7. For an accepted request handled by [src/api/transcribe.js], the
    first network call fetches a URL which, when [audioUrl] contains
    "workdrive.zoho", is [audioUrl] followed by "&directDownload=true" if
    [audioUrl] contains a "?" and by "?directDownload=true" otherwise (so it
    carries directDownload=true), and which is [audioUrl] itself when
    [audioUrl] does not contain "workdrive.zoho". *)
Theorem vendor_url_gets_direct_download w req url :
  accepted req url ->
  exists target rest,
    snd (handler api_transcribe w req) = Fetch target :: rest
    /\ (includes url "workdrive.zoho" = true ->
        includes target "directDownload=true" = true
        /\ (includes url "?" = true -> target = url ++ "&directDownload=true")
        /\ (includes url "?" = false -> target = url ++ "?directDownload=true"))
    /\ (includes url "workdrive.zoho" = false -> target = url).
Proof.
  intros Hacc.
  destruct (accepted_fetches api_transcribe w _ _ Hacc) as [rest H].
  exists (fetched api_transcribe url), rest. split; [exact H|].
  unfold fetched. split.
  - intros ->. destruct (includes url "?"); repeat split; try discriminate.
    + change (url ++ "&directDownload=true")
        with (url ++ "&" ++ "directDownload=true").
      rewrite <- append_assoc. apply includes_suffix.
    + change (url ++ "?directDownload=true")
        with (url ++ "?" ++ "directDownload=true").
      rewrite <- append_assoc. apply includes_suffix.
  - now intros ->.
Qed.

(** C10 (as amended). A POST request whose body is [undefined] (absent) or
    [null] makes the destructuring throw: the handler answers with the
    500-shaped body [{ error: "Transcription failed", message }] carrying the
    engine's message, and makes no network call.  A body that is not an
    object but is neither [undefined] nor [null] (a string, a number, a
    boolean, an array) does not throw: its four fields read as [undefined]
    and the handler answers 400 "audioUrl is required".  This holds for
    both copies of the handler. *)
Theorem body_destructuring src w req :
  method req = "POST" ->
  (nullish (body req) = true ->
   handler src w req
   = (json 500 (obj [ ("error", JsString "Transcription failed");
                      ("message",
                       JsString (fault_message (CannotDestructure (body req)))) ]),
      []))
  /\ (nullish (body req) = false ->
      is_object (body req) = false ->
      handler src w req
      = (json 400 (obj [("error", JsString "audioUrl is required")]), [])).
Proof.
  intros Hm. rewrite (handler_post _ _ _ Hm).
  unfold try_block, steps_1_2, destructure. split.
  - intros ->. reflexivity.
  - intros Hn Ho. rewrite Hn. simpl. unfold bind. simpl.
    destruct (body req); try discriminate; reflexivity.
Qed.

End Properties.

(** * Runs

    The theorems applied to concrete requests, in the concrete engine and
    worlds defined above, and the runs on which a sentence of the
    specification fails. *)

Lemma unparsable_attribution_run :
  exists r calls,
    handler api_transcribe
      (world (downloaded 200 "OK") hello_world (JsString "Sorry, no JSON today."))
      request_with_participants
    = (json 200 r, calls)
    /\ prop r "success" = JsBool true
    /\ prop r "transcript" = JsString "hello world"
    /\ prop r "speakers" = JsArray []
    /\ prop r "meetingSummary" = JsString EmptyString.
Proof.
  edestruct (unparsable_attribution_fails_soft api_transcribe
               (world (downloaded 200 "OK") hello_world
                      (JsString "Sorry, no JSON today."))
               request_with_participants)
    as (r & Hr & H1 & H2 & _ & H3 & H4);
    [reflexivity | reflexivity | reflexivity | reflexivity | reflexivity
    | reflexivity | reflexivity |].
  exists r. eexists. repeat split; [exact Hr | exact H1 | exact H2 | exact H3 | exact H4].
Defined.

Lemma rawTranscript_verbatim_runs :
  (exists r calls,
     handler unnamed_part_000
       (world (downloaded 200 "OK") hello_world (JsString reply_labelled))
       request_with_participants
     = (json 200 r, calls)
     /\ prop r "rawTranscript" = JsString "hello world")
  /\ (exists r calls,
        handler unnamed_part_000
          (world (downloaded 200 "OK") hello_world (JsString "Sorry, no JSON today."))
          request_with_participants
        = (json 200 r, calls)
        /\ prop r "rawTranscript" = JsString "hello world")
  /\ (exists r calls,
        handler unnamed_part_000
          (world (downloaded 200 "OK") hello_world (JsString "A short greeting."))
          plain_request
        = (json 200 r, calls)
        /\ prop r "rawTranscript" = JsString "hello world").
Proof.
  split; [|split].
  - edestruct (rawTranscript_verbatim unnamed_part_000
                 (world (downloaded 200 "OK") hello_world (JsString reply_labelled))
                 request_with_participants)
      as (apiKey & audioFile & t & _ & Ht & Hr); [reflexivity|].
    injection Ht as <-. eexists. eexists. split; [reflexivity | exact Hr].
  - edestruct (rawTranscript_verbatim unnamed_part_000
                 (world (downloaded 200 "OK") hello_world
                        (JsString "Sorry, no JSON today."))
                 request_with_participants)
      as (apiKey & audioFile & t & _ & Ht & Hr); [reflexivity|].
    injection Ht as <-. eexists. eexists. split; [reflexivity | exact Hr].
  - edestruct (rawTranscript_verbatim unnamed_part_000
                 (world (downloaded 200 "OK") hello_world
                        (JsString "A short greeting."))
                 plain_request)
      as (apiKey & audioFile & t & _ & Ht & Hr); [reflexivity|].
    injection Ht as <-. eexists. eexists. split; [reflexivity | exact Hr].
Defined.



Lemma no_participants_summary_only_run :
  exists r calls,
    handler api_transcribe
      (world (downloaded 200 "OK") hello_world (JsString "A short greeting."))
      plain_request
    = (json 200 r, calls)
    /\ prop r "speakers" = JsArray []
    /\ prop r "transcript" = prop r "rawTranscript"
    /\ prop r "meetingSummary" = JsString "A short greeting.".
Proof.
  edestruct (no_participants_summary_only api_transcribe
               (world (downloaded 200 "OK") hello_world (JsString "A short greeting."))
               plain_request)
    as (r & Hr & H1 & H2 & _ & H3);
    [reflexivity | reflexivity | left; reflexivity | reflexivity | reflexivity |].
  exists r. eexists. repeat split; [exact Hr | exact H1 | exact H2 | exact H3].
Defined.

Lemma parsed_attribution_defaults_run :
  exists r calls,
    handler api_transcribe
      (world (downloaded 200 "OK") hello_world (JsString reply_labelled))
      request_with_participants
    = (json 200 r, calls)
    /\ prop r "transcript" = JsString "Ann: hello world"
    /\ prop r "speakers" = JsArray [JsObject [("name", JsString "Ann")]]
    /\ prop r "meetingSummary" = JsString EmptyString.
Proof.
  edestruct (parsed_attribution_defaults api_transcribe
               (world (downloaded 200 "OK") hello_world (JsString reply_labelled))
               request_with_participants)
    as (r & Hr & (H1 & _) & (H2 & _) & (_ & H3));
    [reflexivity | reflexivity | reflexivity | reflexivity | reflexivity
    | reflexivity | reflexivity |].
  exists r. eexists.
  repeat split; [exact Hr | exact (H1 eq_refl) | exact (H2 eq_refl) | exact (H3 eq_refl)].
Defined.

Lemma transcription_fields_defaulted_run :
  exists r calls,
    handler unnamed_part_000
      (world (downloaded 200 "OK") hello_no_language (JsString "A short greeting."))
      plain_request
    = (json 200 r, calls)
    /\ prop r "segments" = JsArray []
    /\ prop r "duration" = JsNumber (Some 0)
    /\ prop r "language" = JsString "en".
Proof.
  edestruct (transcription_fields_defaulted unnamed_part_000
               (world (downloaded 200 "OK") hello_no_language
                      (JsString "A short greeting."))
               plain_request)
    as (r & audioFile & Hr & _ & (_ & H1) & (_ & H2) & (_ & H3));
    [reflexivity | reflexivity | reflexivity |].
  exists r. eexists.
  repeat split; [exact Hr | exact (H1 eq_refl) | exact (H2 eq_refl) | exact (H3 eq_refl)].
Defined.

Lemma file_type_from_url_run :
  exists rest,
    snd (handler api_transcribe
           (world (downloaded 200 "OK") hello_world (JsString "A short greeting."))
           wav_request)
    = Fetch "https://host/call.wav"
      :: TranscriptionsCreate (JsString "k")
           (whisperParams {| fileBits := [Byte.x49; Byte.x44; Byte.x33];
                             fileName := "audio.wav";
                             fileType := "audio/wav" |})
      :: rest.
Proof.
  edestruct (proj2 (proj2 file_type_from_url) api_transcribe
               (world (downloaded 200 "OK") hello_world (JsString "A short greeting."))
               wav_request "https://host/call.wav")
    as (audioFile & rest & Hr & Hbits & Hkind);
    [ repeat split; try reflexivity; discriminate
    | reflexivity | reflexivity | reflexivity |].
  exists rest. rewrite Hr. destruct audioFile as [bits name kind].
  simpl in Hbits, Hkind. injection Hkind as -> ->. rewrite Hbits. reflexivity.
Defined.

(** C3, where the sentence fails: the copy in [src/unnamed/part_000],
    given a URL ending in .wav, submits the audio as audio/mpeg under the
    name audio.mp3, not as the pair the extension table gives. *)
Lemma part_000_ignores_extension :
  exists audioFile rest,
    snd (handler unnamed_part_000
           (world (downloaded 200 "OK") hello_world (JsString "A short greeting."))
           wav_request)
    = Fetch "https://host/call.wav"
      :: TranscriptionsCreate (JsString "k") (whisperParams audioFile) :: rest
    /\ (fileType audioFile, fileName audioFile) = ("audio/mpeg", "audio.mp3")
    /\ first_match extension_table ("audio/mp4", "audio.m4a") "https://host/call.wav"
       = ("audio/wav", "audio.wav")
    /\ (fileType audioFile, fileName audioFile)
       <> first_match extension_table ("audio/mp4", "audio.m4a") "https://host/call.wav".
Proof.
  eexists. eexists. split; [reflexivity|].
  split; [reflexivity|]. split; [reflexivity|]. discriminate.
Qed.

Lemma download_failure_reported_run :
  handler api_transcribe
    (world (downloaded 404 "Not Found") hello_world (JsString "A short greeting."))
    plain_request
  = (json 500 (obj [ ("error", JsString "Transcription failed");
                     ("message",
                      JsString "Failed to download audio file: 404 Not Found") ]),
     [Fetch "https://host/f.mp3"])
  /\ includes "Failed to download audio file: 404 Not Found" "404" = true.
Proof.
  edestruct (download_failure_reported api_transcribe
               (world (downloaded 404 "Not Found") hello_world
                      (JsString "A short greeting."))
               plain_request "https://host/f.mp3")
    as (message & Hr & -> & H1 & _);
    [ repeat split; try reflexivity; discriminate | reflexivity | reflexivity |].
  split; [exact Hr | exact H1].
Defined.

(** C6, where the sentence fails: in the copy in [src/unnamed/part_000] a
    download answered 404 Not Found gives the message "Failed to download
    audio file", which does not contain "404". *)
Lemma part_000_hides_status :
  handler unnamed_part_000
    (world (downloaded 404 "Not Found") hello_world (JsString "A short greeting."))
    plain_request
  = (json 500 (obj [ ("error", JsString "Transcription failed");
                     ("message", JsString "Failed to download audio file") ]),
     [Fetch "https://host/f.mp3"])
  /\ includes "Failed to download audio file" "404" = false.
Proof. split; reflexivity. Qed.

Lemma vendor_url_gets_direct_download_run :
  exists rest,
    snd (handler api_transcribe
           (world (downloaded 200 "OK") hello_world (JsString "A short greeting."))
           vendor_request)
    = Fetch "https://workdrive.zoho.com/file/a1?x=1&directDownload=true" :: rest.
Proof.
  edestruct (vendor_url_gets_direct_download
               (world (downloaded 200 "OK") hello_world (JsString "A short greeting."))
               vendor_request "https://workdrive.zoho.com/file/a1?x=1")
    as (target & rest & Hr & Hvendor & _);
    [ repeat split; try reflexivity; discriminate |].
  destruct (Hvendor eq_refl) as (_ & Hquery & _).
  exists rest. rewrite Hr, (Hquery eq_refl). reflexivity.
Defined.

(** C8, where the sentence fails: the attribution reply parses, its
    [transcript] is present and is the empty string, and the result's
    [transcript] is the raw transcript, not that field. *)
Lemma empty_transcript_is_replaced :
  exists r calls analysis,
    handler api_transcribe
      (world (downloaded 200 "OK") hello_world (JsString reply_empty_transcript))
      request_with_participants
    = (json 200 r, calls)
    /\ parse (JsString reply_empty_transcript) = value analysis
    /\ prop analysis "transcript" = JsString EmptyString
    /\ prop r "transcript" = JsString "hello world"
    /\ prop r "transcript"
       <> if_present (prop analysis "transcript") (JsString "hello world").
Proof.
  eexists. eexists. eexists. split; [reflexivity|].
  split; [reflexivity|]. split; [reflexivity|]. split; [reflexivity|].
  discriminate.
Qed.

(** C9, where the sentence fails: the transcription response has a
    [language] that is present and is the empty string, and the result's
    [language] is "en", not that field passed through. *)
Lemma empty_language_is_replaced :
  exists r calls,
    handler api_transcribe
      (world (downloaded 200 "OK") hello_no_language (JsString "A short greeting."))
      plain_request
    = (json 200 r, calls)
    /\ prop hello_no_language "language" = JsString EmptyString
    /\ prop r "language" = JsString "en"
    /\ prop r "language"
       <> if_present (prop hello_no_language "language") (JsString "en").
Proof.
  eexists. eexists. split; [reflexivity|].
  split; [reflexivity|]. split; [reflexivity|]. discriminate.
Qed.

Lemma body_destructuring_run :
  handler api_transcribe (world (downloaded 200 "OK") hello_world JsNull)
    {| method := "POST"; body := JsUndefined |}
  = (json 500 (obj [ ("error", JsString "Transcription failed");
                     ("message",
                      JsString "Cannot destructure property 'audioUrl' of 'req.body'") ]),
     [])
  /\ handler api_transcribe (world (downloaded 200 "OK") hello_world JsNull)
       {| method := "POST"; body := JsArray [JsString "https://host/f.mp3"] |}
     = (json 400 (obj [("error", JsString "audioUrl is required")]), []).
Proof.
  split.
  - exact (proj1 (body_destructuring api_transcribe
                    (world (downloaded 200 "OK") hello_world JsNull)
                    {| method := "POST"; body := JsUndefined |} eq_refl) eq_refl).
  - exact (proj2 (body_destructuring api_transcribe
                    (world (downloaded 200 "OK") hello_world JsNull)
                    {| method := "POST";
                       body := JsArray [JsString "https://host/f.mp3"] |} eq_refl)
             eq_refl eq_refl).
Defined.

(** C10, where the sentence fails: a POST request whose body is a string,
    not an object, does not make the destructuring throw; the handler
    answers 400 "audioUrl is required", not the 500-shaped failure. *)
Lemma string_body_is_validated :
  is_object (JsString "audioUrl=https://host/f.mp3") = false
  /\ destructure (JsString "audioUrl=https://host/f.mp3")
     = value {| audioUrl := JsUndefined; meetingName := JsUndefined;
                participants := JsUndefined; openaiApiKey := JsUndefined |}
  /\ handler api_transcribe (world (downloaded 200 "OK") hello_world JsNull)
       {| method := "POST"; body := JsString "audioUrl=https://host/f.mp3" |}
     = (json 400 (obj [("error", JsString "audioUrl is required")]), [])
  /\ statusCode (fst (handler api_transcribe
                        (world (downloaded 200 "OK") hello_world JsNull)
                        {| method := "POST";
                           body := JsString "audioUrl=https://host/f.mp3" |}))
     <> 500.
Proof. repeat split; try reflexivity. discriminate. Qed.

(** * Further properties of the handler *)

Section Pipeline.
Context {num : Numbers} {eng : Engine}.

(** *** Counting the calls *)

Lemma silent_ret {A} (a : A) : silent (ret a).
Proof. now intros s c s' [= _ <-]. Qed.

Lemma silent_throw {A} error : silent (@throw _ _ A error).
Proof. now intros s c s' [= _ <-]. Qed.

Lemma silent_return {A} r : silent (@return_ _ _ A r).
Proof. now intros s c s' [= _ <-]. Qed.

Lemma silent_eval {A} (e : Eval A) : silent (eval e).
Proof. destruct e; [apply silent_throw | apply silent_ret]. Qed.

Lemma silent_bind {A B} (m : Exec (list Call) A) (k : A -> Exec (list Call) B) :
  silent m -> (forall a, silent (k a)) -> silent (bind m k).
Proof.
  intros Hm Hk s c s'. rewrite bind_run.
  destruct (m s) as [[a|e|r] s1] eqn:E; rewrite (Hm _ _ _ E).
  - apply Hk.
  - now intros [= _ <-].
  - now intros [= _ <-].
Qed.

Lemma one_call_throw (P : Call -> Prop) {A} error : one_call P (@throw _ _ A error).
Proof. intros s c s' [= <- <-]. left. split; [reflexivity | exact (fun H => H)]. Qed.

Lemma one_call_await (P : Call -> Prop) {A} call (outcome : Eval A) :
  P call -> one_call P (await call outcome).
Proof.
  intros HP s c s'. unfold await, modify. rewrite bind_run.
  destruct outcome; simpl; intros [= _ <-]; right; eauto.
Qed.

Lemma one_call_after {A B} (P : Call -> Prop)
  (m : Exec (list Call) A) (k : A -> Exec (list Call) B) :
  silent m -> (forall a, one_call P (k a)) -> one_call P (bind m k).
Proof.
  intros Hm Hk s c s'. rewrite bind_run.
  destruct (m s) as [[a|e|r] s1] eqn:E; rewrite (Hm _ _ _ E).
  - apply Hk.
  - intros [= <- <-]. left. split; [reflexivity | exact (fun H => H)].
  - intros [= <- <-]. left. split; [reflexivity | exact (fun H => H)].
Qed.

Lemma one_call_then {A B} (P : Call -> Prop)
  (m : Exec (list Call) A) (k : A -> Exec (list Call) B) :
  one_call P m -> (forall a, silent (k a)) -> one_call P (bind m k).
Proof.
  intros Hm Hk s c s'. rewrite bind_run.
  destruct (m s) as [[a|e|r] s1] eqn:E;
    destruct (Hm _ _ _ E) as [[-> Hc]|(call & HP & ->)].
  - now elim Hc.
  - intros H. rewrite (Hk _ _ _ _ H). right. eauto.
  - intros [= <- <-]. left. split; [reflexivity | exact (fun H => H)].
  - intros [= <- <-]. right. eauto.
  - intros [= <- <-]. left. split; [reflexivity | exact (fun H => H)].
  - intros [= <- <-]. right. eauto.
Qed.

Ltac quiet :=
  repeat first
    [ apply silent_ret | apply silent_throw | apply silent_eval
    | apply silent_return
    | apply silent_bind; [|intros ?]
    | match goal with
      | |- silent (if ?b then _ else _) => destruct b
      | |- silent (match ?x with _ => _ end) => destruct x
      end ].

Lemma downloadAudio_one_call src w url :
  one_call (fun call => exists target, call = Fetch target) (downloadAudio src w url).
Proof.
  destruct src; unfold downloadAudio.
  - apply one_call_after; [quiet | intros downloadUrl].
    apply one_call_after; [quiet | intros target].
    apply one_call_then; [apply one_call_await; eauto | intros audioResponse; quiet].
  - apply one_call_after; [quiet | intros target].
    apply one_call_then; [apply one_call_await; eauto | intros audioResponse; quiet].
Qed.

Lemma transcribe_one_call w apiKey audioFile :
  one_call (fun call => call = TranscriptionsCreate apiKey (whisperParams audioFile))
           (transcribe w apiKey audioFile).
Proof.
  unfold transcribe.
  apply one_call_then; [now apply one_call_await | intros t; quiet].
Qed.

(** The calls of Steps 1 and 2, however they end *)
Lemma steps_1_2_calls src w req c calls :
  steps_1_2 src w req [] = (c, calls) ->
  (calls = [] /\ ~ completes c)
  \/ (validated req /\ exists target, calls = [Fetch target] /\ ~ completes c)
  \/ (validated req
      /\ exists target audioFile,
           calls = [ Fetch target;
                     TranscriptionsCreate (prop (body req) "openaiApiKey")
                       (whisperParams audioFile) ]).
Proof.
  unfold steps_1_2, destructure.
  destruct (nullish (body req)) eqn:Hb; simpl.
  { intros [= <- <-]. left. split; [reflexivity | exact (fun H => H)]. }
  rewrite bind_run. simpl.
  destruct (truthy (prop (body req) "audioUrl")) eqn:Hu; simpl.
  2: { intros [= <- <-]. left. split; [reflexivity | exact (fun H => H)]. }
  destruct (truthy (prop (body req) "openaiApiKey")) eqn:Hk; simpl.
  2: { intros [= <- <-]. left. split; [reflexivity | exact (fun H => H)]. }
  assert (Hv : validated req) by (repeat split; assumption).
  rewrite bind_run.
  destruct (downloadAudio src w (prop (body req) "audioUrl") [])
    as [[audioFile|e|r] s1] eqn:D;
    destruct (downloadAudio_one_call _ _ _ _ _ _ D)
      as [[-> Hc]|(call & (target & ->) & ->)]; simpl.
  - now elim Hc.
  - rewrite bind_run.
    destruct (transcribe w (prop (body req) "openaiApiKey") audioFile [Fetch target])
      as [[t|e|r] s2] eqn:T;
      destruct (transcribe_one_call _ _ _ _ _ _ T) as [[-> Hc]|(call & -> & ->)]; simpl.
    + now elim Hc.
    + intros [= <- <-]. right. right. eauto.
    + intros [= <- <-]. right. left. split; [exact Hv|]. exists target.
      split; [reflexivity | exact (fun H => H)].
    + intros [= <- <-]. right. right. eauto.
    + intros [= <- <-]. right. left. split; [exact Hv|]. exists target.
      split; [reflexivity | exact (fun H => H)].
    + intros [= <- <-]. right. right. eauto.
  - intros [= <- <-]. left. split; [reflexivity | exact (fun H => H)].
  - intros [= <- <-]. right. left. split; [exact Hv|]. exists target.
    split; [reflexivity | exact (fun H => H)].
  - intros [= <- <-]. left. split; [reflexivity | exact (fun H => H)].
  - intros [= <- <-]. right. left. split; [exact Hv|]. exists target.
    split; [reflexivity | exact (fun H => H)].
Qed.

(** *** Step 3, however it ends *)

Lemma attributionRequest_inv ps text params :
  attributionRequest ps text = value params ->
  exists list transcript,
    participantList ps = value list
    /\ ToString text = value transcript
    /\ params = attributionParams (matchingPrompt list transcript).
Proof.
  unfold attributionRequest.
  destruct (participantList ps) as [e|list]; simpl; [discriminate|].
  destruct (ToString text) as [e|transcript]; simpl; [discriminate|].
  intros [= <-]. now exists list, transcript.
Qed.

Lemma step_3_inv w st calls c calls' :
  step_3 w st calls = (c, calls') ->
  (calls' = calls /\ exists e, c = Throw e)
  \/ (hasParticipants (participants (fields st)) = value false
      /\ calls' = (calls ++ [ChatCompletionsCreate (openaiApiKey (fields st))
                               (summaryParams (prop (transcription st) "text"))])%list
      /\ match chat_completions_create w (openaiApiKey (fields st))
                 (summaryParams (prop (transcription st) "text")) with
         | inl e => c = Throw e
         | inr summaryResponse =>
             match message_content summaryResponse with
             | inl e => c = Throw e
             | inr summary => c = Normal (set_meetingSummary summary (declared st))
             end
         end)
  \/ (exists params,
        hasParticipants (participants (fields st)) = value true
        /\ attributionRequest (participants (fields st))
             (prop (transcription st) "text") = value params
        /\ calls' = (calls ++ [ChatCompletionsCreate (openaiApiKey (fields st))
                                 params])%list
        /\ match chat_completions_create w (openaiApiKey (fields st)) params with
           | inl e => c = Throw e
           | inr gptResponse =>
               c = Normal (tryReadAnalysis (prop (transcription st) "text")
                                           gptResponse (declared st))
           end).
Proof.
  unfold step_3. rewrite bind_run.
  destruct (hasParticipants (participants (fields st))) as [e|[|]]; simpl.
  - intros [= <- <-]. left. eauto.
  - rewrite bind_run.
    destruct (attributionRequest (participants (fields st))
                (prop (transcription st) "text")) as [e|params]; simpl.
    + intros [= <- <-]. left. eauto.
    + unfold await, modify. rewrite !bind_run. simpl.
      destruct (chat_completions_create w (openaiApiKey (fields st)) params)
        as [e|gptResponse] eqn:C; simpl; intros [= <- <-];
        right; right; exists params; try rewrite C; auto.
  - unfold await, modify. rewrite !bind_run. simpl.
    destruct (chat_completions_create w (openaiApiKey (fields st))
                (summaryParams (prop (transcription st) "text")))
      as [e|summaryResponse] eqn:C; simpl.
    + intros [= <- <-]. right. left. auto.
    + destruct (message_content summaryResponse) as [e|summary] eqn:M; simpl;
        intros [= <- <-]; right; left; try rewrite M; auto.
Qed.

(** The inner [try] leaves the locals either all defaulted or all read from
    a parsed reply. *)
Lemma tryReadAnalysis_cases text gptResponse vars :
  tryReadAnalysis text gptResponse vars = set_matchedTranscript text vars
  \/ exists reply analysis,
       message_content gptResponse = value reply
       /\ parse reply = value analysis
       /\ nullish analysis = false
       /\ tryReadAnalysis text gptResponse vars
          = {| matchedTranscript := or_else (prop analysis "transcript") text;
               speakerSummaries := or_else (prop analysis "speakers") (JsArray []);
               meetingSummary :=
                 or_else (prop analysis "meetingSummary") (JsString EmptyString) |}.
Proof.
  destruct (message_content gptResponse) as [e|reply] eqn:M.
  { left. unfold tryReadAnalysis, readAnalysis. rewrite M. reflexivity. }
  destruct (parse reply) as [e|analysis] eqn:P.
  { left. unfold tryReadAnalysis, readAnalysis. rewrite M, bind_run. simpl.
    rewrite P. reflexivity. }
  destruct (nullish analysis) eqn:N.
  - left. exact (tryReadAnalysis_null _ _ _ _ _ M P N).
  - right. exists reply, analysis. repeat split; auto.
    exact (tryReadAnalysis_parsed _ _ _ _ _ M P N).
Qed.

(** *** The outer [try], however it ends *)

Lemma handler_post_run src w req c calls :
  method req = "POST" ->
  steps_1_2 src w req [] = (c, calls) ->
  handler src w req
  = match c with
    | Normal st =>
        match step_3 w st calls with
        | (Normal vars, calls') => (json 200 (result st vars), calls')
        | (Throw e, calls') => (json 500 (failure e), calls')
        | (Return r, calls') => (r, calls')
        end
    | Throw e => (json 500 (failure e), calls)
    | Return r => (r, calls)
    end.
Proof.
  intros Hm H. rewrite (handler_post _ _ _ Hm).
  unfold try_block. rewrite bind_run, H.
  destruct c as [st|e|r]; try reflexivity.
  rewrite bind_run. now destruct (step_3 w st calls) as [[vars|e|r] calls'].
Qed.

Lemma steps_1_2_rejected src w req r calls :
  steps_1_2 src w req [] = (Return r, calls) ->
  calls = []
  /\ (r = json 400 (obj [("error", JsString "audioUrl is required")])
      \/ r = json 400 (obj [("error", JsString "openaiApiKey is required")])).
Proof.
  unfold steps_1_2, destructure.
  destruct (nullish (body req)); simpl; [discriminate|].
  rewrite bind_run. simpl.
  destruct (truthy (prop (body req) "audioUrl")); simpl;
    [|intros [= <- <-]; auto].
  destruct (truthy (prop (body req) "openaiApiKey")); simpl;
    [|intros [= <- <-]; auto].
  intros H. exfalso. revert H.
  apply no_return_bind; [apply downloadAudio_no_return|intros a].
  apply no_return_bind; [apply transcribe_no_return|intros t].
  apply no_return_ret.
Qed.

(** Every answer to a POST is one of four. *)
Lemma post_answers src w req :
  method req = "POST" ->
  (exists message,
     handler src w req = (json 400 (obj [("error", JsString message)]), []))
  \/ (exists e calls, handler src w req = (json 500 (failure e), calls))
  \/ (exists st before vars calls,
        steps_1_2 src w req [] = (Normal st, before)
        /\ step_3 w st before = (Normal vars, calls)
        /\ handler src w req = (json 200 (result st vars), calls)).
Proof.
  intros Hm.
  destruct (steps_1_2 src w req []) as [[st|e|r] before] eqn:H12;
    rewrite (handler_post_run _ _ _ _ _ Hm H12).
  - destruct (step_3 w st before) as [[vars|e|r] calls] eqn:H3.
    + right. right. now exists st, before, vars, calls.
    + right. left. eauto.
    + elim (step_3_no_return _ _ _ _ _ H3).
  - right. left. eauto.
  - destruct (steps_1_2_rejected _ _ _ _ _ H12) as (-> & [->| ->]); left; eauto.
Qed.

(** X1. Whatever the method, the body and the outcome of the calls, the
    response carries the three CORS headers and its status is 200, 400, 405
    or 500.  It has no body exactly when the method is OPTIONS, and its
    status is 405 exactly when the method is neither OPTIONS nor POST. *)
Theorem responses_are_framed src w req :
  headers (fst (handler src w req)) = cors
  /\ In (statusCode (fst (handler src w req))) [200; 400; 405; 500]
  /\ (payload (fst (handler src w req)) = None <-> method req = "OPTIONS")
  /\ (statusCode (fst (handler src w req)) = 405
      <-> method req <> "OPTIONS" /\ method req <> "POST").
Proof.
  destruct (method req =? "OPTIONS") eqn:Ho.
  { apply String.eqb_eq in Ho as Ho'. unfold handler. rewrite Ho. simpl.
    repeat split; auto; try discriminate; tauto. }
  apply String.eqb_neq in Ho as Ho'.
  destruct (method req =? "POST") eqn:Hp.
  - apply String.eqb_eq in Hp as Hp'.
    destruct (post_answers src w req Hp')
      as [(m & ->)|[(e & calls & ->)|(st & b & vars & calls & _ & _ & ->)]];
      simpl; repeat split; auto; try discriminate; try tauto;
      try (intros [_ H]; now elim H).
  - apply String.eqb_neq in Hp as Hp'. unfold handler. rewrite Ho, Hp. simpl.
    repeat split; auto; try discriminate; tauto.
Qed.

(** X2. The handler touches the network only for a POST request whose
    body can be destructured and has a truthy [audioUrl] and a truthy
    [openaiApiKey]: any run that makes a call is such a request. *)
Theorem network_only_after_validation src w req :
  snd (handler src w req) <> [] ->
  method req = "POST" /\ validated req.
Proof.
  intros H.
  destruct (method req =? "OPTIONS") eqn:Ho.
  { unfold handler in H. rewrite Ho in H. now elim H. }
  destruct (method req =? "POST") eqn:Hp.
  2: { unfold handler in H. rewrite Ho, Hp in H. now elim H. }
  apply String.eqb_eq in Hp. split; [exact Hp|].
  destruct (steps_1_2 src w req []) as [c before] eqn:H12.
  rewrite (handler_post_run _ _ _ _ _ Hp H12) in H.
  destruct (steps_1_2_calls _ _ _ _ _ H12) as [[-> Hc]|[[Hv _]|[Hv _]]]; auto.
  destruct c as [st|e|r]; [now elim Hc | now elim H | now elim H].
Qed.

(** X3. A response with status 400 or 405 was produced without any
    network call. *)
Theorem rejections_make_no_call src w req resp calls :
  handler src w req = (resp, calls) ->
  statusCode resp = 400 \/ statusCode resp = 405 ->
  calls = [].
Proof.
  intros H Hs.
  destruct (method req =? "OPTIONS") eqn:Ho.
  { unfold handler in H. rewrite Ho in H. now injection H as _ <-. }
  destruct (method req =? "POST") eqn:Hp.
  2: { unfold handler in H. rewrite Ho, Hp in H. now injection H as _ <-. }
  apply String.eqb_eq in Hp.
  destruct (post_answers src w req Hp)
    as [(m & E)|[(e & c & E)|(st & b & vars & c & _ & _ & E)]];
    rewrite E in H; injection H as <- <-; auto;
    destruct Hs; discriminate.
Qed.

(** X4. In every run the calls made are a prefix of: one download, one
    transcription, one language-model call, in that order; nothing is
    called twice, and both service calls carry the [openaiApiKey] of the
    request body. *)
Theorem calls_in_pipeline_order src w req :
  in_pipeline_order (prop (body req) "openaiApiKey") (snd (handler src w req)).
Proof.
  destruct (method req =? "OPTIONS") eqn:Ho.
  { unfold handler. rewrite Ho. now left. }
  destruct (method req =? "POST") eqn:Hp.
  2: { unfold handler. rewrite Ho, Hp. now left. }
  apply String.eqb_eq in Hp.
  destruct (steps_1_2 src w req []) as [c before] eqn:H12.
  rewrite (handler_post_run _ _ _ _ _ Hp H12).
  destruct (steps_1_2_calls _ _ _ _ _ H12)
    as [[-> Hc]|[(_ & target & -> & Hc)|(_ & target & audioFile & ->)]].
  - destruct c; [now elim Hc | |]; left; reflexivity.
  - destruct c; [now elim Hc | |]; right; left; exists target; reflexivity.
  - destruct c as [st|e|r];
      [|right; right; left; exists target, audioFile; reflexivity..].
    destruct (steps_1_2_inv _ _ _ _ _ H12) as (Hf & _).
    assert (Hk : openaiApiKey (fields st) = prop (body req) "openaiApiKey")
      by now rewrite Hf.
    destruct (step_3 w st _) as [c' calls'] eqn:H3.
    destruct (step_3_inv _ _ _ _ _ H3)
      as [(-> & e & ->)|[(_ & -> & _)|(params & _ & _ & -> & _)]].
    + simpl. right. right. left. exists target, audioFile. reflexivity.
    + rewrite Hk. right. right. right.
      exists target, audioFile, (summaryParams (prop (transcription st) "text")).
      now destruct c'.
    + rewrite Hk. right. right. right. exists target, audioFile, params.
      now destruct c'.
Qed.

(** X5. A 200 answer with a result is reached only after all three calls:
    the download, the transcription and exactly one language-model call,
    which is either the summary request on the raw transcript or an
    attribution request. *)
Theorem success_makes_three_calls src w req r calls :
  handler src w req = (json 200 r, calls) ->
  exists target audioFile params,
    calls = [ Fetch target;
              TranscriptionsCreate (prop (body req) "openaiApiKey")
                (whisperParams audioFile);
              ChatCompletionsCreate (prop (body req) "openaiApiKey") params ]
    /\ (params = summaryParams (prop r "rawTranscript")
        \/ exists prompt, params = attributionParams prompt).
Proof.
  intros H.
  destruct (handler_success_inv _ _ _ _ _ H) as (st & before & vars & _ & H12 & H3 & ->).
  destruct (steps_1_2_inv _ _ _ _ _ H12) as (Hf & _).
  assert (Hk : openaiApiKey (fields st) = prop (body req) "openaiApiKey")
    by now rewrite Hf.
  destruct (steps_1_2_calls _ _ _ _ _ H12)
    as [[_ Hc]|[(_ & t & _ & Hc)|(_ & target & audioFile & ->)]];
    [now elim Hc | now elim Hc |].
  destruct (step_3_inv _ _ _ _ _ H3)
    as [(_ & e & E)|[(_ & -> & _)|(params & _ & Hreq & -> & _)]];
    [discriminate | |]; rewrite Hk.
  - exists target, audioFile, (summaryParams (prop (transcription st) "text")).
    split; [reflexivity | now left].
  - exists target, audioFile, params. split; [reflexivity|]. right.
    destruct (attributionRequest_inv _ _ _ Hreq) as (l & t & _ & _ & ->). eauto.
Qed.

(** X6. When the transcription call of an accepted request rejects, the
    handler answers 500 with the service's message; when it resolves with
    [undefined] or [null], the handler answers 500 as well, the read in the
    log line after the call having thrown.  In both cases the calls made
    are the download and the transcription only: the language model is not
    called.  This holds for both copies of the handler. *)
Theorem transcription_failure_reported src w req url audioResponse bits :
  accepted req url ->
  fetch w (fetched src url) = value audioResponse ->
  ok audioResponse = true ->
  arrayBuffer audioResponse = value bits ->
  let attempt :=
    [ Fetch (fetched src url);
      TranscriptionsCreate (prop (body req) "openaiApiKey")
        (whisperParams (submitted src url bits)) ] in
  (forall e,
     audio_transcriptions_create w (prop (body req) "openaiApiKey")
       (whisperParams (submitted src url bits)) = inl e ->
     handler src w req = (json 500 (failure e), attempt))
  /\ (forall t,
        audio_transcriptions_create w (prop (body req) "openaiApiKey")
          (whisperParams (submitted src url bits)) = value t ->
        nullish t = true ->
        handler src w req
        = (json 500 (failure (EngineError (CannotReadProperty t "segments"))),
           attempt)).
Proof.
  intros Hacc Hf Hok Hbits attempt. pose proof Hacc as (Hm & _).
  assert (H12 : forall c,
             transcribe w (prop (body req) "openaiApiKey") (submitted src url bits)
               [Fetch (fetched src url)] = (Throw c, attempt) ->
             handler src w req = (json 500 (failure c), attempt)).
  { intros c T. apply (handler_post_run _ _ _ (Throw c) attempt Hm).
    rewrite (accepted_steps_1_2 _ _ _ _ Hacc).
    rewrite bind_run, downloadAudio_string, Hf. simpl. rewrite Hok, Hbits. simpl.
    rewrite bind_run, T. reflexivity. }
  split.
  - intros e He. apply H12. unfold transcribe, await, modify.
    rewrite !bind_run. simpl. rewrite He. reflexivity.
  - intros t Ht Hn. apply H12. unfold transcribe, await, modify, get.
    rewrite !bind_run. simpl. rewrite Ht. simpl. rewrite Hn. reflexivity.
Qed.

(** X7. When the download of an accepted request rejects (no response at
    all), or answers with success but its body cannot be read, the handler
    answers 500 with that error's message, and the download is the only
    call made.  This holds for both copies of the handler. *)
Theorem download_rejection_reported src w req url :
  accepted req url ->
  (forall e,
     fetch w (fetched src url) = inl e ->
     handler src w req = (json 500 (failure e), [Fetch (fetched src url)]))
  /\ (forall audioResponse e,
        fetch w (fetched src url) = value audioResponse ->
        ok audioResponse = true ->
        arrayBuffer audioResponse = inl e ->
        handler src w req = (json 500 (failure e), [Fetch (fetched src url)])).
Proof.
  intros Hacc. pose proof Hacc as (Hm & _). split.
  - intros e Hf. apply (handler_post_run _ _ _ (Throw e) _ Hm).
    rewrite (accepted_steps_1_2 _ _ _ _ Hacc).
    rewrite bind_run, downloadAudio_string, Hf. reflexivity.
  - intros audioResponse e Hf Hok Hb.
    apply (handler_post_run _ _ _ (Throw e) _ Hm).
    rewrite (accepted_steps_1_2 _ _ _ _ Hacc).
    rewrite bind_run, downloadAudio_string, Hf. simpl. rewrite Hok, Hb. reflexivity.
Qed.

Lemma handler_step_3_throws src w req st calls e calls' :
  method req = "POST" ->
  steps_1_2 src w req [] = (Normal st, calls) ->
  step_3 w st calls = (Throw e, calls') ->
  handler src w req = (json 500 (failure e), calls').
Proof.
  intros Hm H12 H3. rewrite (handler_post_run _ _ _ _ _ Hm H12), H3. reflexivity.
Qed.

Lemma participants_of_stage src w req st calls :
  steps_1_2 src w req [] = (Normal st, calls) ->
  participants (fields st) = prop (body req) "participants".
Proof. intros H. destruct (steps_1_2_inv _ _ _ _ _ H) as (-> & _). reflexivity. Qed.

(** X8. A rejected language-model call is not recovered: once a request
    has reached Step 3, if the summary call (participants absent or empty)
    or the attribution call (participants a non-empty array) rejects, the
    handler answers 500 with that error's message, after that one call.
    This holds for both copies of the handler. *)
Theorem language_model_failure_aborts src w req st calls params e :
  method req = "POST" ->
  steps_1_2 src w req [] = (Normal st, calls) ->
  ((prop (body req) "participants" = JsUndefined
    \/ prop (body req) "participants" = JsArray [])
   /\ params = summaryParams (prop (transcription st) "text"))
  \/ ((exists p ps, prop (body req) "participants" = JsArray (p :: ps))
      /\ attributionRequest (prop (body req) "participants")
           (prop (transcription st) "text") = value params) ->
  chat_completions_create w (openaiApiKey (fields st)) params = inl e ->
  handler src w req
  = (json 500 (failure e),
     (calls ++ [ChatCompletionsCreate (openaiApiKey (fields st)) params])%list).
Proof.
  intros Hm H12 Hmode Hc.
  apply (handler_step_3_throws _ _ _ _ _ _ _ Hm H12).
  pose proof (participants_of_stage _ _ _ _ _ H12) as Hp.
  unfold step_3. rewrite bind_run, Hp.
  destruct Hmode as [[Hps ->]|[(p & ps & Hps) Hreq]].
  - rewrite (hasParticipants_absent_or_empty _ Hps). simpl.
    unfold await, modify. rewrite !bind_run. simpl. rewrite Hc. reflexivity.
  - rewrite Hps in *. rewrite hasParticipants_nonempty. simpl.
    rewrite bind_run, Hreq. simpl.
    unfold await, modify. rewrite !bind_run. simpl. rewrite Hc. reflexivity.
Qed.

(** X9. A reply from which [choices[0].message.content] cannot be read is
    treated differently by the two modes.  In Mode A the read sits inside
    the inner [try]: the handler answers 200 with the raw transcript, no
    speakers and an empty summary.  In Mode B it sits outside: the handler
    answers 500 with the message of the error the read throws.  This holds
    for both copies of the handler. *)
Theorem unreadable_reply_by_mode src w req st calls params reply e :
  method req = "POST" ->
  steps_1_2 src w req [] = (Normal st, calls) ->
  chat_completions_create w (openaiApiKey (fields st)) params = value reply ->
  message_content reply = inl e ->
  ((exists p ps, prop (body req) "participants" = JsArray (p :: ps)) ->
   attributionRequest (prop (body req) "participants")
     (prop (transcription st) "text") = value params ->
   exists r,
     handler src w req
     = (json 200 r,
        (calls ++ [ChatCompletionsCreate (openaiApiKey (fields st)) params])%list)
     /\ prop r "transcript" = prop (transcription st) "text"
     /\ prop r "speakers" = JsArray []
     /\ prop r "meetingSummary" = JsString EmptyString)
  /\ (prop (body req) "participants" = JsUndefined
      \/ prop (body req) "participants" = JsArray [] ->
      params = summaryParams (prop (transcription st) "text") ->
      handler src w req
      = (json 500 (failure e),
         (calls ++ [ChatCompletionsCreate (openaiApiKey (fields st)) params])%list)).
Proof.
  intros Hm H12 Hc Hr.
  pose proof (participants_of_stage _ _ _ _ _ H12) as Hp. split.
  - intros (p & ps & Hps) Hreq.
    exists (result st (set_matchedTranscript (prop (transcription st) "text")
                                             (declared st))).
    split; [|repeat split; reflexivity].
    apply (handler_success _ _ _ _ _ _ _ Hm H12).
    assert (Htry : tryReadAnalysis (prop (transcription st) "text") reply (declared st)
                   = set_matchedTranscript (prop (transcription st) "text") (declared st)).
    { unfold tryReadAnalysis, readAnalysis. rewrite Hr. reflexivity. }
    rewrite <- Htry. rewrite Hps in Hreq.
    apply step_3_attribution; rewrite ?Hp, ?Hps;
      auto using hasParticipants_nonempty.
  - intros Hps ->. apply (handler_step_3_throws _ _ _ _ _ _ _ Hm H12).
    unfold step_3. rewrite bind_run, Hp.
    rewrite (hasParticipants_absent_or_empty _ Hps). simpl.
    unfold await, modify. rewrite !bind_run. simpl. rewrite Hc. simpl.
    rewrite Hr. reflexivity.
Qed.

(** X10. In every result, [meetingName] is the request's [meetingName]
    when that is truthy and "Untitled Meeting" when it is absent or falsy
    (the empty string included).  This holds for both copies. *)
Theorem meetingName_defaulted src w req r calls :
  handler src w req = (json 200 r, calls) ->
  defaulted (prop (body req) "meetingName") (JsString "Untitled Meeting")
            (prop r "meetingName").
Proof.
  intros H.
  destruct (handler_success_inv _ _ _ _ _ H) as (st & before & vars & _ & H12 & _ & ->).
  destruct (steps_1_2_inv _ _ _ _ _ H12) as (Hf & _).
  change (prop (body req) "meetingName") with (meetingName (body_fields req)).
  rewrite <- Hf. apply or_else_defaulted.
Qed.

(** *** Participants that cannot be listed *)

Lemma participantLines_nullish i ps p :
  In p ps -> nullish p = true -> exists e, participantLines i ps = inl e.
Proof.
  revert i. induction ps as [|q ps IH]; intros i Hin Hn; [now elim Hin|].
  simpl. unfold get.
  destruct Hin as [->|Hin]; [rewrite Hn; simpl; eauto|].
  destruct (nullish q); simpl; [eauto|].
  destruct (ToString (prop q "speaker")); simpl; [eauto|].
  destruct (ToString (or_else (prop q "sampleQuote") (JsString "Not provided")));
    simpl; [eauto|].
  destruct (IH (S i) Hin Hn) as [e ->]. simpl. eauto.
Qed.

Lemma step_3_unlisted w st calls e :
  hasParticipants (participants (fields st)) = value true ->
  participantList (participants (fields st)) = inl e ->
  step_3 w st calls = (Throw e, calls).
Proof.
  intros Hp Hl. unfold step_3. rewrite bind_run, Hp. simpl.
  unfold attributionRequest. rewrite bind_run, Hl. reflexivity.
Qed.

(** X11. Only a malformed reply is forgiven in Mode A, not malformed
    participants.  Once a request has reached Step 3, a [participants]
    that is a non-empty string (it has a positive [length] but no [map]),
    or an array with an [undefined] or [null] entry, makes the handler
    answer 500 without calling the language model.  This holds for both
    copies of the handler. *)
Theorem unusable_participants_abort src w req st calls :
  method req = "POST" ->
  steps_1_2 src w req [] = (Normal st, calls) ->
  (forall s,
     prop (body req) "participants" = JsString s ->
     s <> EmptyString ->
     handler src w req
     = (json 500 (failure (EngineError (NotAFunction "participants.map"))), calls))
  /\ (forall ps p,
        prop (body req) "participants" = JsArray ps ->
        In p ps ->
        nullish p = true ->
        exists e, handler src w req = (json 500 (failure e), calls)).
Proof.
  intros Hm H12.
  pose proof (participants_of_stage _ _ _ _ _ H12) as Hp. split.
  - intros s Hs Hne.
    apply (handler_step_3_throws _ _ _ _ _ _ _ Hm H12).
    apply step_3_unlisted; rewrite Hp, Hs; [|reflexivity].
    unfold hasParticipants. simpl.
    destruct s; [now elim Hne|]. simpl. now rewrite Number_gt_zero_of_nat.
  - intros ps p Hps Hin Hn.
    destruct (participantLines_nullish 0 ps p Hin Hn) as [e He].
    exists e. apply (handler_step_3_throws _ _ _ _ _ _ _ Hm H12).
    apply step_3_unlisted; rewrite Hp, Hps.
    + destruct ps; [now elim Hin | apply hasParticipants_nonempty].
    + simpl. now rewrite He.
Qed.

(** X12. In [src/api/transcribe.js], an [audioUrl] that passes the
    validation but is a number, a boolean or a plain object has no
    [includes] method: the handler answers 500 with the engine's message
    and makes no network call at all. *)
Theorem url_without_includes_rejected w req :
  method req = "POST" ->
  validated req ->
  lacks_includes (prop (body req) "audioUrl") = true ->
  handler api_transcribe w req
  = (json 500 (failure (EngineError (NotAFunction "audioUrl.includes"))), []).
Proof.
  intros Hm (Hb & Hu & Hk) Hl.
  apply (handler_post_run _ _ _ (Throw _) [] Hm).
  rewrite (steps_1_2_validated _ _ _ Hb Hu Hk).
  rewrite bind_run. unfold downloadAudio, resolveDownloadUrl.
  destruct (prop (body req) "audioUrl"); try discriminate; reflexivity.
Qed.

(** *** What the attribution prompt contains *)

Lemma includes_trans (a b c : string) :
  includes a b = true -> includes b c = true -> includes a c = true.
Proof.
  rewrite !includes_split. intros (x & y & ->) (u & v & ->).
  exists (x ++ u), (v ++ y). now rewrite !append_assoc.
Qed.

Lemma includes_self (s : string) : includes s s = true.
Proof.
  apply includes_split. exists EmptyString, EmptyString.
  now rewrite append_empty_r.
Qed.

Lemma includes_concat (separator : string) (l : list string) (x : string) :
  In x l -> includes (String.concat separator l) x = true.
Proof.
  induction l as [|y l IH]; intros Hin; [now elim Hin|].
  destruct l as [|z l].
  - destruct Hin as [->|[]]. apply includes_self.
  - change (String.concat separator (y :: z :: l))
      with (y ++ separator ++ String.concat separator (z :: l)).
    destruct Hin as [->|Hin].
    + apply (includes_app EmptyString).
    + apply includes_trans with (String.concat separator (z :: l)); [|now apply IH].
      rewrite <- append_assoc. apply includes_suffix.
Qed.

Lemma participantLines_nth i ps lines n p :
  participantLines i ps = value lines ->
  nth_error ps n = Some p ->
  exists speaker quote,
    ToString (prop p "speaker") = value speaker
    /\ ToString (or_else (prop p "sampleQuote") (JsString "Not provided")) = value quote
    /\ nth_error lines n
       = Some (decimal (i + n + 1) ++ ". " ++ quoted speaker
               ++ " - Sample quote: " ++ quoted quote).
Proof.
  revert i lines n. induction ps as [|q ps IH]; intros i lines n H Hn.
  { now destruct n. }
  simpl in H. unfold get in H.
  destruct (nullish q); simpl in H; [discriminate|].
  destruct (ToString (prop q "speaker")) as [e|speaker] eqn:Es;
    simpl in H; [discriminate|].
  destruct (ToString (or_else (prop q "sampleQuote") (JsString "Not provided")))
    as [e|quote] eqn:Eq; simpl in H; [discriminate|].
  destruct (participantLines (S i) ps) as [e|rest] eqn:Er;
    simpl in H; [discriminate|].
  injection H as <-.
  destruct n as [|n]; simpl in Hn.
  - injection Hn as <-. exists speaker, quote.
    rewrite Nat.add_0_r. auto.
  - destruct (IH _ _ _ Er Hn) as (sp & qu & H1 & H2 & H3).
    exists sp, qu. repeat split; auto. simpl.
    rewrite H3. now rewrite Nat.add_succ_comm.
Qed.

Lemma matchingPrompt_includes list text :
  includes (matchingPrompt list text) list = true
  /\ includes (matchingPrompt list text) text = true.
Proof.
  split; apply includes_concat; simpl; tauto.
Qed.

(** X13. Whenever the attribution request can be built for a participants
    array, it asks "gpt-4o" for a JSON object with at most 4000 tokens, and
    its user message contains the transcript text and, for the participant
    at index [i], the line made of [i + 1], its quoted [speaker] and its
    quoted [sampleQuote], the latter replaced by "Not provided" when it is
    absent or falsy. *)
Theorem prompt_lists_every_participant ps text params :
  attributionRequest (JsArray ps) text = value params ->
  exists systemMessage prompt transcript,
    params = {| model := "gpt-4o";
                messages := [ systemMessage;
                              {| role := "user"; content := JsString prompt |} ];
                response_format := Some "json_object";
                max_tokens := 4000 |}
    /\ role systemMessage = "system"
    /\ ToString text = value transcript
    /\ includes prompt transcript = true
    /\ forall i p,
         nth_error ps i = Some p ->
         exists speaker quote,
           ToString (prop p "speaker") = value speaker
           /\ ToString (or_else (prop p "sampleQuote") (JsString "Not provided"))
              = value quote
           /\ includes prompt (decimal (i + 1) ++ ". " ++ quoted speaker
                               ++ " - Sample quote: " ++ quoted quote) = true.
Proof.
  intros H.
  destruct (attributionRequest_inv _ _ _ H) as (list & transcript & Hl & Ht & ->).
  simpl in Hl.
  destruct (participantLines 0 ps) as [e|lines] eqn:El; simpl in Hl; [discriminate|].
  injection Hl as <-.
  destruct (matchingPrompt_includes (String.concat nl lines) transcript) as [Hlist Htext].
  eexists. exists (matchingPrompt (String.concat nl lines) transcript), transcript.
  split; [reflexivity|]. split; [reflexivity|]. split; [exact Ht|].
  split; [exact Htext|].
  intros i p Hp.
  destruct (participantLines_nth _ _ _ _ _ El Hp) as (speaker & quote & H1 & H2 & H3).
  exists speaker, quote. repeat split; auto.
  apply includes_trans with (String.concat nl lines); [exact Hlist|].
  apply includes_concat. apply nth_error_In with i. exact H3.
Qed.

(** X14. A result's [speakers] differs from the empty array only when
    the language model was asked for an attribution (JSON output), its
    reply was read and parsed, and [speakers] is the parsed reply's
    [speakers] field, untouched.  This holds for both copies. *)
Theorem speakers_only_from_parsed_reply src w req r calls :
  handler src w req = (json 200 r, calls) ->
  prop r "speakers" <> JsArray [] ->
  exists apiKey params gptResponse reply analysis,
    In (ChatCompletionsCreate apiKey params) calls
    /\ response_format params = Some "json_object"
    /\ chat_completions_create w apiKey params = value gptResponse
    /\ message_content gptResponse = value reply
    /\ parse reply = value analysis
    /\ prop r "speakers" = prop analysis "speakers".
Proof.
  intros H Hs.
  destruct (handler_success_inv _ _ _ _ _ H) as (st & before & vars & _ & _ & H3 & ->).
  change (prop (result st vars) "speakers") with (speakerSummaries vars) in *.
  destruct (step_3_inv _ _ _ _ _ H3)
    as [(_ & e & E)|[(_ & _ & Hc)|(params & _ & Hreq & -> & Hc)]];
    [discriminate | |].
  - destruct (chat_completions_create w _ _) as [e|summaryResponse];
      [discriminate|].
    destruct (message_content summaryResponse) as [e|summary]; [discriminate|].
    injection Hc as ->. now elim Hs.
  - destruct (chat_completions_create w (openaiApiKey (fields st)) params)
      as [e|gptResponse] eqn:C; [discriminate|].
    injection Hc as ->.
    destruct (tryReadAnalysis_cases (prop (transcription st) "text") gptResponse
                (declared st)) as [E|(reply & analysis & Hm & Hp & _ & E)];
      rewrite E in Hs; simpl in Hs; [now elim Hs|].
    exists (openaiApiKey (fields st)), params, gptResponse, reply, analysis.
    destruct (attributionRequest_inv _ _ _ Hreq) as (l & t & _ & _ & ->).
    repeat split; auto.
    + apply in_or_app. right. now left.
    + rewrite E. simpl. unfold or_else in *.
      destruct (truthy (prop analysis "speakers")); [reflexivity | now elim Hs].
Qed.

(** X15. The two copies of the handler answer alike, with the same calls,
    for every accepted request whose URL contains ".mp3" (in any case) and
    not "workdrive.zoho", as long as the download does not answer with a
    non-success status: there the copy of [src/api/transcribe.js] rewrites
    nothing and detects audio/mpeg, which is what the other copy assumes. *)
Theorem copies_agree_on_mp3 w req url :
  accepted req url ->
  includes url "workdrive.zoho" = false ->
  includes (toLowerCase url) ".mp3" = true ->
  (forall audioResponse, fetch w url = value audioResponse -> ok audioResponse = true) ->
  handler api_transcribe w req = handler unnamed_part_000 w req.
Proof.
  intros Hacc Hv Hmp3 Hok. pose proof Hacc as (Hm & _).
  rewrite !(handler_post _ _ _ Hm). unfold try_block.
  rewrite !(accepted_steps_1_2 _ _ _ _ Hacc).
  rewrite !(bind_run (bind _ _)), !(bind_run (downloadAudio _ _ _)).
  rewrite !downloadAudio_string.
  assert (Ef : fetched api_transcribe url = url) by (unfold fetched; now rewrite Hv).
  assert (Es : forall bits, submitted api_transcribe url bits
                            = submitted unnamed_part_000 url bits)
    by (intros bits; unfold submitted, detectFileType; now rewrite Hmp3).
  rewrite Ef. change (fetched unnamed_part_000 url) with url.
  destruct (fetch w url) as [e|audioResponse] eqn:F; [reflexivity|].
  rewrite (Hok _ eq_refl).
  destruct (arrayBuffer audioResponse) as [e|bits]; [reflexivity|].
  now rewrite Es.
Qed.

End Pipeline.

(** * Further runs *)

Lemma network_only_after_validation_run :
  snd (handler api_transcribe
         (world (downloaded 404 "Not Found") hello_world JsNull) plain_request)
  <> []
  /\ method plain_request = "POST"
  /\ validated plain_request.
Proof.
  assert (H : snd (handler api_transcribe
                     (world (downloaded 404 "Not Found") hello_world JsNull)
                     plain_request) <> [])
    by (intros H; vm_compute in H; discriminate H).
  split; [exact H|].
  exact (network_only_after_validation api_transcribe _ plain_request H).
Defined.

Lemma rejections_make_no_call_run :
  snd (handler unnamed_part_000
         (world (downloaded 200 "OK") hello_world JsNull)
         (post [("openaiApiKey", JsString "k")]))
  = [].
Proof.
  apply (rejections_make_no_call unnamed_part_000
           (world (downloaded 200 "OK") hello_world JsNull)
           (post [("openaiApiKey", JsString "k")])
           (json 400 (obj [("error", JsString "audioUrl is required")]))).
  - reflexivity.
  - left. reflexivity.
Defined.

Lemma success_makes_three_calls_run :
  exists target audioFile params,
    snd (handler api_transcribe
           (world (downloaded 200 "OK") hello_world (JsString "A short greeting."))
           plain_request)
    = [ Fetch target;
        TranscriptionsCreate (JsString "k") (whisperParams audioFile);
        ChatCompletionsCreate (JsString "k") params ].
Proof.
  edestruct (success_makes_three_calls api_transcribe
               (world (downloaded 200 "OK") hello_world (JsString "A short greeting."))
               plain_request)
    as (target & audioFile & params & H & _); [reflexivity|].
  exists target, audioFile, params. exact H.
Defined.

Lemma transcription_failure_reported_run :
  handler api_transcribe
    (service_world (value (downloaded 200 "OK")) (unavailable "Whisper is down")
                   (value (chat_reply JsNull)))
    plain_request
  = (json 500 (obj [ ("error", JsString "Transcription failed");
                     ("message", JsString "Whisper is down") ]),
     [ Fetch "https://host/f.mp3";
       TranscriptionsCreate (JsString "k")
         (whisperParams {| fileBits := [Byte.x49; Byte.x44; Byte.x33];
                           fileName := "audio.mp3";
                           fileType := "audio/mpeg" |}) ])
  /\ statusCode
       (fst (handler unnamed_part_000
               (service_world (value (downloaded 200 "OK")) (value JsNull)
                              (value (chat_reply JsNull)))
               plain_request))
     = 500.
Proof.
  split.
  - exact (proj1 (transcription_failure_reported api_transcribe
                    (service_world (value (downloaded 200 "OK"))
                                   (unavailable "Whisper is down")
                                   (value (chat_reply JsNull)))
                    plain_request "https://host/f.mp3" (downloaded 200 "OK")
                    [Byte.x49; Byte.x44; Byte.x33]
                    ltac:(repeat split; try reflexivity; discriminate)
                    eq_refl eq_refl eq_refl)
                 (Error "Whisper is down") eq_refl).
  - rewrite (proj2 (transcription_failure_reported unnamed_part_000
                      (service_world (value (downloaded 200 "OK")) (value JsNull)
                                     (value (chat_reply JsNull)))
                      plain_request "https://host/f.mp3" (downloaded 200 "OK")
                      [Byte.x49; Byte.x44; Byte.x33]
                      ltac:(repeat split; try reflexivity; discriminate)
                      eq_refl eq_refl eq_refl) JsNull eq_refl eq_refl).
    reflexivity.
Defined.

Lemma download_rejection_reported_run :
  handler api_transcribe
    (service_world (unavailable "fetch failed") (value hello_world)
                   (value (chat_reply JsNull)))
    vendor_request
  = (json 500 (obj [ ("error", JsString "Transcription failed");
                     ("message", JsString "fetch failed") ]),
     [Fetch "https://workdrive.zoho.com/file/a1?x=1&directDownload=true"]).
Proof.
  exact (proj1 (download_rejection_reported api_transcribe
                  (service_world (unavailable "fetch failed") (value hello_world)
                                 (value (chat_reply JsNull)))
                  vendor_request "https://workdrive.zoho.com/file/a1?x=1"
                  ltac:(repeat split; try reflexivity; discriminate))
               (Error "fetch failed") eq_refl).
Defined.

Lemma language_model_failure_aborts_run :
  exists calls,
    handler api_transcribe
      (service_world (value (downloaded 200 "OK")) (value hello_world)
                     (unavailable "429 Too Many Requests"))
      request_with_participants
    = (json 500 (obj [ ("error", JsString "Transcription failed");
                       ("message", JsString "429 Too Many Requests") ]),
       calls).
Proof.
  eexists.
  eapply (language_model_failure_aborts api_transcribe
            (service_world (value (downloaded 200 "OK")) (value hello_world)
                           (unavailable "429 Too Many Requests"))
            request_with_participants _ _ _ (Error "429 Too Many Requests")).
  - reflexivity.
  - reflexivity.
  - right. split; [eexists; eexists; reflexivity | reflexivity].
  - reflexivity.
Defined.

Lemma unreadable_reply_by_mode_run :
  (exists r calls,
     handler api_transcribe
       (service_world (value (downloaded 200 "OK")) (value hello_world)
                      (value no_choices))
       request_with_participants
     = (json 200 r, calls)
     /\ prop r "transcript" = JsString "hello world")
  /\ statusCode
       (fst (handler api_transcribe
               (service_world (value (downloaded 200 "OK")) (value hello_world)
                              (value no_choices))
               plain_request))
     = 500.
Proof.
  split.
  - edestruct (unreadable_reply_by_mode api_transcribe
                 (service_world (value (downloaded 200 "OK"))
                                (value hello_world) (value no_choices))
                 request_with_participants) as [modeA _];
      [reflexivity | reflexivity | reflexivity | reflexivity |].
    edestruct modeA as (r & Hr & Ht & _);
      [eexists; eexists; reflexivity | reflexivity |].
    exists r. eexists. split; [exact Hr | exact Ht].
  - edestruct (unreadable_reply_by_mode api_transcribe
                 (service_world (value (downloaded 200 "OK"))
                                (value hello_world) (value no_choices))
                 plain_request) as [_ modeB];
      [reflexivity | reflexivity | reflexivity | reflexivity |].
    rewrite modeB; [reflexivity | left; reflexivity | reflexivity].
Defined.

Lemma meetingName_defaulted_run :
  (exists r calls,
     handler api_transcribe
       (world (downloaded 200 "OK") hello_world (JsString "A short greeting."))
       titled_request
     = (json 200 r, calls)
     /\ prop r "meetingName" = JsString "Weekly sync")
  /\ (exists r calls,
        handler api_transcribe
          (world (downloaded 200 "OK") hello_world (JsString "A short greeting."))
          plain_request
        = (json 200 r, calls)
        /\ prop r "meetingName" = JsString "Untitled Meeting").
Proof.
  split.
  - edestruct (meetingName_defaulted api_transcribe
                 (world (downloaded 200 "OK") hello_world
                        (JsString "A short greeting."))
                 titled_request) as [given _]; [reflexivity|].
    eexists. eexists. split; [reflexivity | exact (given eq_refl)].
  - edestruct (meetingName_defaulted api_transcribe
                 (world (downloaded 200 "OK") hello_world
                        (JsString "A short greeting."))
                 plain_request) as [_ missing]; [reflexivity|].
    eexists. eexists. split; [reflexivity | exact (missing eq_refl)].
Defined.

Lemma unusable_participants_abort_run :
  handler api_transcribe
    (world (downloaded 200 "OK") hello_world (JsString reply_labelled))
    request_with_participants_text
  = (json 500 (obj [ ("error", JsString "Transcription failed");
                     ("message", JsString "participants.map is not a function") ]),
     [ Fetch "https://host/f.mp3";
       TranscriptionsCreate (JsString "k")
         (whisperParams {| fileBits := [Byte.x49; Byte.x44; Byte.x33];
                           fileName := "audio.mp3";
                           fileType := "audio/mpeg" |}) ])
  /\ exists e calls,
       handler api_transcribe
         (world (downloaded 200 "OK") hello_world (JsString reply_labelled))
         request_with_null_participant
       = (json 500 (failure e), calls).
Proof.
  split.
  - edestruct (unusable_participants_abort api_transcribe
                 (world (downloaded 200 "OK") hello_world (JsString reply_labelled))
                 request_with_participants_text) as [text _];
      [reflexivity | reflexivity |].
    exact (text "Ann, Bob" eq_refl ltac:(discriminate)).
  - edestruct (unusable_participants_abort api_transcribe
                 (world (downloaded 200 "OK") hello_world (JsString reply_labelled))
                 request_with_null_participant) as [_ entry];
      [reflexivity | reflexivity |].
    destruct (entry [JsObject [("speaker", JsString "Ann")]; JsNull] JsNull
                eq_refl ltac:(right; left; reflexivity) eq_refl) as [e He].
    exists e. eexists. exact He.
Defined.

Lemma url_without_includes_rejected_run :
  handler api_transcribe
    (world (downloaded 200 "OK") hello_world (JsString "A short greeting."))
    request_with_numeric_url
  = (json 500 (obj [ ("error", JsString "Transcription failed");
                     ("message", JsString "audioUrl.includes is not a function") ]),
     []).
Proof.
  exact (url_without_includes_rejected
           (world (downloaded 200 "OK") hello_world (JsString "A short greeting."))
           request_with_numeric_url eq_refl
           (conj eq_refl (conj eq_refl eq_refl)) eq_refl).
Defined.

Lemma prompt_lists_every_participant_run :
  exists params prompt,
    attributionRequest one_participant (JsString "hello world") = value params
    /\ nth_error (messages params) 1 = Some {| role := "user"; content := JsString prompt |}
    /\ includes prompt "hello world" = true
    /\ includes prompt ("1. " ++ quoted "Ann" ++ " - Sample quote: "
                        ++ quoted "Not provided") = true.
Proof.
  destruct (attributionRequest one_participant (JsString "hello world"))
    as [e|params] eqn:E; [discriminate E|].
  destruct (prompt_lists_every_participant _ _ _ E)
    as (systemMessage & prompt & transcript & -> & _ & Ht & Htext & Hlines).
  injection Ht as <-.
  destruct (Hlines 0 _ eq_refl) as (speaker & quote & Hs & Hq & Hline).
  injection Hs as <-. injection Hq as <-.
  eexists. exists prompt. split; [reflexivity|].
  split; [reflexivity|]. split; [exact Htext | exact Hline].
Defined.

Lemma speakers_only_from_parsed_reply_run :
  exists r calls analysis,
    handler api_transcribe
      (world (downloaded 200 "OK") hello_world (JsString reply_labelled))
      request_with_participants
    = (json 200 r, calls)
    /\ parse (JsString reply_labelled) = value analysis
    /\ prop r "speakers" = prop analysis "speakers".
Proof.
  edestruct (speakers_only_from_parsed_reply api_transcribe
               (world (downloaded 200 "OK") hello_world (JsString reply_labelled))
               request_with_participants)
    as (apiKey & params & gptResponse & reply & analysis & _ & _ & Hc & Hm & Hp & Hs);
    [reflexivity | discriminate |].
  injection Hc as <-. injection Hm as <-.
  eexists. eexists. exists analysis. split; [reflexivity|].
  split; [exact Hp | exact Hs].
Defined.

Lemma copies_agree_on_mp3_run :
  handler api_transcribe
    (world (downloaded 200 "OK") hello_world (JsString "A short greeting."))
    plain_request
  = handler unnamed_part_000
      (world (downloaded 200 "OK") hello_world (JsString "A short greeting."))
      plain_request.
Proof.
  apply (copies_agree_on_mp3
           (world (downloaded 200 "OK") hello_world (JsString "A short greeting."))
           plain_request "https://host/f.mp3").
  - repeat split; try reflexivity; discriminate.
  - reflexivity.
  - reflexivity.
  - intros audioResponse [= <-]. reflexivity.
Defined.

(** * The body of a response, by status *)

Section Bodies.
Context {num : Numbers} {eng : Engine}.

(** X16. The value given to [json] is determined in shape by the status:
    a 200 body has exactly the nine keys of the result, in order, with
    [success] true; a 500 body has exactly the keys [error] and [message],
    with [error] "Transcription failed"; a 400 body has the single key
    [error] with one of the two validation messages; a 405 body has the
    single key [error] with "Method not allowed".  This holds for both
    copies of the handler. *)
Theorem body_matches_status src w req v :
  payload (fst (handler src w req)) = Some v ->
  match statusCode (fst (handler src w req)) with
  | 200 =>
      keys v = [ "success"; "meetingName"; "transcript"; "rawTranscript";
                 "segments"; "speakers"; "meetingSummary"; "duration"; "language" ]
      /\ prop v "success" = JsBool true
  | 500 =>
      keys v = ["error"; "message"]
      /\ prop v "error" = JsString "Transcription failed"
      /\ exists message, prop v "message" = JsString message
  | 400 =>
      keys v = ["error"]
      /\ (prop v "error" = JsString "audioUrl is required"
          \/ prop v "error" = JsString "openaiApiKey is required")
  | 405 => keys v = ["error"] /\ prop v "error" = JsString "Method not allowed"
  | _ => False
  end.
Proof.
  destruct (method req =? "OPTIONS") eqn:Ho.
  { unfold handler. rewrite Ho. discriminate. }
  destruct (method req =? "POST") eqn:Hp.
  2: { unfold handler. rewrite Ho, Hp. simpl. intros [= <-]. now split. }
  apply String.eqb_eq in Hp.
  destruct (steps_1_2 src w req []) as [c before] eqn:H12.
  rewrite (handler_post_run _ _ _ _ _ Hp H12).
  destruct c as [st|e|r].
  - destruct (step_3 w st before) as [[vars|e|r] calls] eqn:H3; simpl.
    + intros [= <-]. now split.
    + intros [= <-]. repeat split. now exists (error_message e).
    + elim (step_3_no_return _ _ _ _ _ H3).
  - simpl. intros [= <-]. repeat split. now exists (error_message e).
  - destruct (steps_1_2_rejected _ _ _ _ _ H12) as (_ & [->| ->]);
      simpl; intros [= <-]; split; auto.
Qed.

End Bodies.

Lemma body_matches_status_run :
  exists v,
    payload (fst (handler api_transcribe
                    (world (downloaded 404 "Not Found") hello_world JsNull)
                    plain_request)) = Some v
    /\ keys v = ["error"; "message"]
    /\ prop v "error" = JsString "Transcription failed".
Proof.
  eexists. split; [reflexivity|].
  destruct (body_matches_status api_transcribe
              (world (downloaded 404 "Not Found") hello_world JsNull)
              plain_request _ eq_refl) as (Hk & He & _).
  split; [exact Hk | exact He].
Defined.
